(** * Bouncing-ball tracker: server physics, telemetry handler and
      client detector, embedded from [server/server.py] and
      [client/client.py].

    Python integers are unbounded, so they are [Z].  Methods that mutate
    [self] or print are computations in a small state-and-exception monad
    [Py]; a Python exception is the [Raise] outcome. *)

From Stdlib Require Import ZArith List String Bool Lia.
From Stdlib Require Import QArith SpecFloat.
Import ListNotations.
Open Scope string_scope.
Open Scope Z_scope.

(** ** The monad of Python methods *)

Module PyMonad.

(** The exceptions the modelled code can raise. *)
Inductive exn : Type :=
| JSONDecodeError
| KeyError (key : string)
| TypeError
| ValueError
| OverflowError.

Inductive Outcome (A : Type) : Type :=
| Return (a : A)
| Raise (e : exn).
Arguments Return {A} a.
Arguments Raise {A} e.

(** A computation over a mutable state [S]. *)
Definition Py (S A : Type) : Type := S -> Outcome A * S.

Definition ret {S A} (a : A) : Py S A := fun s => (Return a, s).

Definition raise {S A} (e : exn) : Py S A := fun s => (Raise e, s).

Definition bind {S A B} (m : Py S A) (k : A -> Py S B) : Py S B :=
  fun s =>
    match m s with
    | (Return a, s') => k a s'
    | (Raise e, s') => (Raise e, s')
    end.

Definition get {S} : Py S S := fun s => (Return s, s).

Definition modify {S} (f : S -> S) : Py S unit := fun s => (Return tt, f s).

(** Lifting of a pure outcome (an expression that may raise). *)
Definition lift {S A} (o : Outcome A) : Py S A := fun s => (o, s).

(** The state a computation leaves behind. *)
Definition exec {S A} (m : Py S A) (s : S) : S := snd (m s).

(** Python's [if c: body] with no [else]. *)
Definition when {S} (c : bool) (body : Py S unit) : Py S unit :=
  if c then body else ret tt.

End PyMonad.
Import PyMonad.

Declare Scope py_scope.
Delimit Scope py_scope with py.
Notation "v <- m ;; k" := (bind m (fun v => k))
  (at level 61, m at next level, right associativity) : py_scope.
Notation "m ;; k" := (bind m (fun _ => k))
  (at level 61, right associativity) : py_scope.

(** ** server.py: class Ball *)

Module Server.

Record Ball : Type := mkBall {
  x : Z;
  y : Z;
  velocity_x : Z;
  velocity_y : Z;
  radius : Z
}.

(** Attribute assignments [self.f = v]. *)
Definition set_x (v : Z) (self : Ball) : Ball :=
  mkBall v (y self) (velocity_x self) (velocity_y self) (radius self).
Definition set_y (v : Z) (self : Ball) : Ball :=
  mkBall (x self) v (velocity_x self) (velocity_y self) (radius self).
Definition set_velocity_x (v : Z) (self : Ball) : Ball :=
  mkBall (x self) (y self) v (velocity_y self) (radius self).
Definition set_velocity_y (v : Z) (self : Ball) : Ball :=
  mkBall (x self) (y self) (velocity_x self) v (radius self).

(** [Ball._check_bounce]: two independent [if] statements, each reading
    the attributes as they are when it runs. *)
Definition _check_bounce (width height : Z) : Py Ball unit :=
  (self <- get ;;
   when ((x self - radius self <=? 0) || (x self + radius self >=? width))
        (modify (fun self => set_velocity_x (velocity_x self * -1) self)) ;;
   self <- get ;;
   when ((y self - radius self <=? 0) || (y self + radius self >=? height))
        (modify (fun self => set_velocity_y (velocity_y self * -1) self)))%py.

(** [Ball.update_position]. *)
Definition update_position (width height : Z) : Py Ball unit :=
  (modify (fun self => set_x (x self + velocity_x self) self) ;;
   modify (fun self => set_y (y self + velocity_y self) self) ;;
   _check_bounce width height)%py.

(** [n] successive calls of [update_position] on the same ball, as
    [BouncingBallTrack.recv] makes them, one per frame. *)
Fixpoint ticks (n : nat) (width height : Z) (self : Ball) : Ball :=
  match n with
  | O => self
  | S k => ticks k width height (exec (update_position width height) self)
  end.

(** The edge test of [_check_bounce] on one axis. *)
Definition at_edge (pos rad dim : Z) : Prop :=
  pos - rad <= 0 \/ pos + rad >= dim.

(** A centre that keeps the whole disc inside one axis of the frame. *)
Definition in_frame (pos rad dim : Z) : Prop :=
  rad <= pos <= dim - rad.


(** One axis of a ball that is in the frame or has passed an edge by a
    single move and now heads back: either the centre is in the frame,
    or it is beyond the far edge with a velocity that brings it back
    within it, or the same at the near edge. *)
Definition near_frame (pos vel rad dim : Z) : Prop :=
  rad <= dim - rad /\
  (in_frame pos rad dim \/
   (dim - rad < pos /\ vel < 0 /\ pos + vel <= dim - rad) \/
   (pos < rad /\ 0 < vel /\ rad <= pos + vel)).

(** ** server.py: BouncingBallTrack and the process state

    Only the attributes the telemetry handler can reach are kept. *)
Record BouncingBallTrack : Type := mkTrack {
  ball : Ball;
  width : Z;
  height : Z;
  pts : Z
}.

(** *** Floats

    A Python float is an IEEE 754 binary64 number: a signed zero, a signed
    infinity, NaN, or a finite number [(-1)^s * m * 2^e].  Subtraction,
    addition, the square root and the conversion from an integer round to
    the nearest number, ties to even, as the standard library's
    [spec_float] operations do at precision 53. *)
Definition float : Type := spec_float.
Definition prec : Z := 53.
Definition emax : Z := 1024.

Definition float_sub : float -> float -> float := SFsub prec emax.
Definition float_add : float -> float -> float := SFadd prec emax.
Definition float_sqrt : float -> float := SFsqrt prec emax.
Definition float_one : float := SFone prec emax.

(** The rational a finite float stands for. *)
Definition float_value (f : float) : option Q :=
  match f with
  | S754_zero _ => Some 0%Q
  | S754_finite s m e =>
      Some ((if s then -1 else 1) * inject_Z (Z.pos m) * 2 ^ e)%Q
  | _ => None
  end.

(** The sign bit; NaN has none here. *)
Definition is_negative (f : float) : bool :=
  match f with
  | S754_zero s | S754_infinity s | S754_finite s _ _ => s
  | S754_nan => false
  end.

(** [float(n)] for an int, as every mixed operation and [math.sqrt] do it:
    the nearest float, or [OverflowError] when that is beyond the largest
    finite one. *)
Definition int_to_float (n : Z) : Outcome float :=
  match binary_normalize prec emax n 0 false with
  | S754_infinity _ => Raise OverflowError
  | f => Return f
  end.

(** The C library's [pow(v, 2.0)] for a finite [v > 0] other than 1, as
    [float.__pow__] reads it: the result, or [None] when the call reports
    a range error, which Python raises as [OverflowError]. *)
Class Libm : Type := { pow_two : float -> option float }.

(** [v ** 2] on a float.  NaN, the infinities, the zeros and 1 are
    answered before the C library is asked, and the library gets the
    absolute value. *)
Definition float_square `{Libm} (v : float) : Outcome float :=
  match v with
  | S754_nan => Return S754_nan
  | S754_infinity _ => Return (S754_infinity false)
  | S754_zero _ => Return (S754_zero false)
  | S754_finite _ m e =>
      let a := S754_finite false m e in
      if SFeqb a float_one then Return float_one
      else
        match pow_two a with
        | Some r => Return r
        | None => Raise OverflowError
        end
  end.

(** A C library whose [pow(v, 2.0)] is the rounded product [v * v], with a
    range error when that is infinite; used for the examples. *)
Definition rounding_libm : Libm := {|
  pow_two := fun v =>
    match SFmul prec emax v v with
    | S754_infinity _ => None
    | r => Some r
    end
|}.

(** *** Values built by [json.loads]

    A JSON object becomes a [dict], kept here as its items in insertion
    order with distinct keys.  A number written without fraction or
    exponent becomes an [int], any other a [float]; the decoder also
    accepts [NaN] and [Infinity]. *)
#[local] Unset Elimination Schemes.
Inductive pyval : Type :=
| PNone
| PBool (b : bool)
| PInt (n : Z)
| PFloat (f : float)
| PStr (s : string)
| PList (l : list pyval)
| PDict (d : list (string * pyval)).
#[local] Set Elimination Schemes.

(** The decoder is the standard library's; it returns a value or raises
    [JSONDecodeError]. *)
Class Json : Type := { json_loads : string -> Outcome pyval }.

Fixpoint dict_get (d : list (string * pyval)) (key : string) : option pyval :=
  match d with
  | [] => None
  | (k, v) :: d' => if String.eqb k key then Some v else dict_get d' key
  end.

(** [v[key]] for a string [key]: only a dict can be indexed by a string. *)
Definition getitem (v : pyval) (key : string) : Outcome pyval :=
  match v with
  | PDict d =>
      match dict_get d key with
      | Some w => Return w
      | None => Raise (KeyError key)
      end
  | _ => Raise TypeError
  end.

(** Python's numbers: [int], and [float]; [bool] is a subclass of [int]. *)
Inductive number : Type :=
| NInt (n : Z)
| NFloat (f : float).

Definition as_number (v : pyval) : option number :=
  match v with
  | PBool b => Some (NInt (Z.b2z b))
  | PInt n => Some (NInt n)
  | PFloat f => Some (NFloat f)
  | _ => None
  end.

(** The operand of a float operation: an int is converted first. *)
Definition as_float (a : number) : Outcome float :=
  match a with
  | NInt n => int_to_float n
  | NFloat f => Return f
  end.

(** A binary operation that is exact on two ints and a float operation
    otherwise, the left operand converted before the right. *)
Definition arith (on_int : Z -> Z -> Z) (on_float : float -> float -> float)
    (a b : number) : Outcome number :=
  match a, b with
  | NInt m, NInt n => Return (NInt (on_int m n))
  | _, _ =>
      match as_float a with
      | Raise e => Raise e
      | Return u =>
          match as_float b with
          | Raise e => Raise e
          | Return v => Return (NFloat (on_float u v))
          end
      end
  end.

Definition num_sub : number -> number -> Outcome number :=
  arith Z.sub float_sub.

Definition num_add : number -> number -> Outcome number :=
  arith Z.add float_add.

(** [a ** 2]: exact on an int. *)
Definition num_square `{Libm} (a : number) : Outcome number :=
  match a with
  | NInt n => Return (NInt (n ^ 2))
  | NFloat f =>
      match float_square f with
      | Return r => Return (NFloat r)
      | Raise e => Raise e
      end
  end.

(** [a - v] for an int [a]: a [TypeError] unless [v] is a number. *)
Definition py_sub (a : Z) (v : pyval) : Outcome number :=
  match as_number v with
  | Some b => num_sub (NInt a) b
  | None => Raise TypeError
  end.

(** [math.sqrt]: the argument is converted to a float; a negative one,
    [-inf] included, is a [ValueError]; [-0.0], [inf] and NaN go
    through. *)
Definition math_sqrt (a : number) : Outcome float :=
  match as_float a with
  | Raise e => Raise e
  | Return v =>
      match v with
      | S754_finite true _ _ | S754_infinity true => Raise ValueError
      | _ => Return (float_sqrt v)
      end
  end.

(** The line [on_message] prints: the decoded message, the ball's
    position and the error. *)
Record ErrorSample : Type := mkSample {
  reported : pyval;
  actual : Z * Z;
  error : float
}.

(** What the handler can read and write: the track it closes over and
    the standard output. *)
Record Process : Type := mkProcess {
  track : BouncingBallTrack;
  stdout : list ErrorSample
}.

Definition print (line : ErrorSample) : Py Process unit :=
  modify (fun p => mkProcess (track p) (stdout p ++ [line])%list).

(** [setup_data_channel.on_message].  The operands of [+] are evaluated
    from left to right: the first square is taken before the second
    difference. *)
Definition on_message `{Json} `{Libm} (message : string) : Py Process unit :=
  (coordinates <- lift (json_loads message) ;;
   predicted_x <- lift (getitem coordinates "x") ;;
   predicted_y <- lift (getitem coordinates "y") ;;
   p <- get ;;
   let actual_x := x (ball (track p)) in
   let actual_y := y (ball (track p)) in
   dx <- lift (py_sub actual_x predicted_x) ;;
   dx2 <- lift (num_square dx) ;;
   dy <- lift (py_sub actual_y predicted_y) ;;
   dy2 <- lift (num_square dy) ;;
   sum <- lift (num_add dx2 dy2) ;;
   error <- lift (math_sqrt sum) ;;
   print (mkSample coordinates (actual_x, actual_y) error))%py.

(** A message the wire format calls well formed, as far as the handler
    can tell: a JSON object whose [x] and [y] are numbers. *)
Definition is_number (v : pyval) : bool :=
  match as_number v with Some _ => true | None => false end.

Definition has_number (d : list (string * pyval)) (key : string) : bool :=
  match dict_get d key with
  | Some v => is_number v
  | None => false
  end.

Definition well_formed (v : pyval) : bool :=
  match v with
  | PDict d => has_number d "x" && has_number d "y"
  | _ => false
  end.

(** A decoder for the messages the examples below use; every other text
    is rejected.  [field "x" "320"] is the text ["x": 320] with its key
    quoted. *)
Definition dquote : string := String (Ascii.ascii_of_nat 34) EmptyString.

Definition field (name value : string) : string :=
  (dquote ++ name ++ dquote ++ ": " ++ value)%string.

Definition msg_320_240 : string :=
  ("{" ++ field "x" "320" ++ ", " ++ field "y" "240" ++ "}")%string.

Definition msg_without_x : string :=
  ("{" ++ field "y" "240" ++ "}")%string.

Definition msg_text_x : string :=
  ("{" ++ field "x" (dquote ++ "left" ++ dquote) ++ ", "
       ++ field "y" "240" ++ "}")%string.

Fixpoint zeros (n : nat) : string :=
  match n with
  | O => EmptyString
  | S k => ("0" ++ zeros k)%string
  end.

(** The message whose [x] is the integer 10^200. *)
Definition msg_huge_x : string :=
  ("{" ++ field "x" ("1" ++ zeros 200) ++ ", " ++ field "y" "0" ++ "}")%string.

(** The message whose [x] is the float 1e200 and whose [y] is a text. *)
Definition msg_float_x_text_y : string :=
  ("{" ++ field "x" "1e200" ++ ", "
       ++ field "y" (dquote ++ "a" ++ dquote) ++ "}")%string.

(** The float nearest 10^200. *)
Definition float_1e200 : float := binary_normalize prec emax (10 ^ 200) 0 false.

Definition sample_loads (message : string) : Outcome pyval :=
  if String.eqb message msg_320_240 then
    Return (PDict [("x", PInt 320); ("y", PInt 240)])
  else if String.eqb message msg_without_x then
    Return (PDict [("y", PInt 240)])
  else if String.eqb message msg_text_x then
    Return (PDict [("x", PStr "left"); ("y", PInt 240)])
  else if String.eqb message msg_huge_x then
    Return (PDict [("x", PInt (10 ^ 200)); ("y", PInt 0)])
  else if String.eqb message msg_float_x_text_y then
    Return (PDict [("x", PFloat float_1e200); ("y", PStr "a")])
  else Raise JSONDecodeError.

Definition sample_json : Json := {| json_loads := sample_loads |}.

(** ** server.py: BouncingBallTrack.recv

    The array and drawing calls of [recv] are library calls: a black
    [rows] by [cols] colour image, and a filled white circle drawn on an
    image.  [VideoFrame.from_ndarray] wraps the image as it is. *)
Class Canvas : Type := {
  image : Type;
  np_zeros : Z -> Z -> image;
  cv2_circle : image -> Z * Z -> Z -> image
}.

(** [self.time_base = Fraction(1, 90000)], never reassigned. *)
Definition time_base : Z * Z := (1, 90000).

Record VideoFrame `{Canvas} : Type := mkVideoFrame {
  planes : image;
  frame_pts : Z;
  frame_time_base : Z * Z
}.
Arguments mkVideoFrame {_} _ _ _.

(** A method of [self.ball], called from a method of the track. *)
Definition on_ball {A : Type} (m : Py Ball A) : Py BouncingBallTrack A :=
  fun self =>
    let '(o, b) := m (ball self) in
    (o, mkTrack b (width self) (height self) (pts self)).

(** [BouncingBallTrack._create_video_frame]: the frame takes the current
    [pts], which then advances by [time_base.denominator // 30]. *)
Definition _create_video_frame `{Canvas} (frame : image)
    : Py BouncingBallTrack VideoFrame :=
  (self <- get ;;
   let new_frame := mkVideoFrame frame (pts self) time_base in
   modify (fun self =>
             mkTrack (ball self) (width self) (height self)
               (pts self + snd time_base / 30)) ;;
   ret new_frame)%py.

(** [BouncingBallTrack.recv]. *)
Definition recv `{Canvas} : Py BouncingBallTrack VideoFrame :=
  (self <- get ;;
   let frame := np_zeros (height self) (width self) in
   on_ball (update_position (width self) (height self)) ;;
   self <- get ;;
   let frame :=
     cv2_circle frame (x (ball self), y (ball self)) (radius (ball self)) in
   _create_video_frame frame)%py.

(** [n] calls of [recv] in a row, with the frames they return. *)
Fixpoint recvs `{Canvas} (n : nat) : Py BouncingBallTrack (list VideoFrame) :=
  match n with
  | O => ret []
  | S k => (f <- recv ;; fs <- recvs k ;; ret (f :: fs))%py
  end.

(** The frame [recv] returns on its call number [k], counted from 0, for
    a track that started as [self]. *)
Definition frame_number `{Canvas} (self : BouncingBallTrack) (k : nat)
    : VideoFrame :=
  let b := ticks (S k) (width self) (height self) (ball self) in
  mkVideoFrame
    (cv2_circle (np_zeros (height self) (width self)) (x b, y b) (radius b))
    (pts self + 3000 * Z.of_nat k)
    time_base.

(** Images as the list of what was drawn on them, for the examples. *)
Definition drawing_canvas : Canvas := {|
  image := Z * Z * list (Z * Z * Z);
  np_zeros := fun rows cols => (rows, cols, []);
  cv2_circle := fun img centre r =>
    let '(rows, cols, drawn) := img in
    (rows, cols, (drawn ++ [(fst centre, snd centre, r)])%list)
|}.


End Server.
Import Server.

(** ** client.py *)

Module Client.

(** *** The OpenCV calls of [find_ball_coordinates]

    Grayscale conversion, thresholding, contour extraction, contour area
    and the minimum enclosing circle are library calls; the detector is
    written against their signatures.  OpenCV's floats are finite here,
    hence rationals. *)
Inductive ColorConversionCode : Type := COLOR_BGR2GRAY.
Inductive ThresholdType : Type := THRESH_BINARY.
Inductive RetrievalMode : Type := RETR_EXTERNAL.
Inductive ApproxMode : Type := CHAIN_APPROX_SIMPLE.

Class Cv2 : Type := {
  ndarray : Type;
  contour : Type;
  cvtColor : ndarray -> ColorConversionCode -> ndarray;
  threshold : ndarray -> Z -> Z -> ThresholdType -> Q * ndarray;
  findContours :
    ndarray -> RetrievalMode -> ApproxMode -> list contour * ndarray;
  contourArea : contour -> Q;
  minEnclosingCircle : contour -> (Q * Q) * Q
}.

(** [max(items, key=key)] on a non-empty sequence: the first item whose
    key is maximal. *)
Definition py_max {A : Type} (key : A -> Q) (first : A) (rest : list A) : A :=
  fold_left
    (fun best item => if Qle_bool (key item) (key best) then best else item)
    rest first.

(** [int(f)] on a float: truncation towards zero. *)
Definition py_int (f : Q) : Z := Z.quot (Qnum f) (Zpos (Qden f)).

(** [find_ball_coordinates]; [None] is Python's [None]. *)
Definition find_ball_coordinates `{Cv2} (frame : ndarray) : option (Z * Z) :=
  let gray := cvtColor frame COLOR_BGR2GRAY in
  let '(_, thresh) := threshold gray 250 255 THRESH_BINARY in
  let '(contours, _) := findContours thresh RETR_EXTERNAL CHAIN_APPROX_SIMPLE in
  match contours with
  | c0 :: cs =>
      let c := py_max contourArea c0 cs in
      let '((cx, cy), _) := minEnclosingCircle c in
      Some (py_int cx, py_int cy)
  | [] => None
  end.

(** *** The shared cells

    [x_value] and [y_value] are two separate
    [multiprocessing.Value(ctypes.c_int, 0)] objects.  A [c_int] keeps
    the low 32 bits of what is stored, as a signed number. *)
Definition c_int (v : Z) : Z := (v + 2 ^ 31) mod 2 ^ 32 - 2 ^ 31.

Record Shared : Type := mkShared {
  x_value : Z;
  y_value : Z
}.

(** The cells as [run_client] creates them. *)
Definition initial_cells : Shared := mkShared (c_int 0) (c_int 0).

(** [x_value.value = v] and [y_value.value = v]. *)
Definition store_x (v : Z) (m : Shared) : Shared :=
  mkShared (c_int v) (y_value m).
Definition store_y (v : Z) (m : Shared) : Shared :=
  mkShared (x_value m) (c_int v).

(** [x_value.value, y_value.value = coordinates]: the targets of a tuple
    assignment are assigned from left to right, one store each. *)
Definition publish (coordinates : Z * Z) (m : Shared) : Shared :=
  store_y (snd coordinates) (store_x (fst coordinates) m).

(** The test of [on_track] for whether coordinates have been updated:
    [(x_value.value, y_value.value) != (0, 0)]. *)
Definition coordinates_updated (m : Shared) : bool :=
  negb ((x_value m =? 0) && (y_value m =? 0)).

(** *** [process_frame], run to its end

    The queue is given by everything that is ever put on it, in order;
    [None] is the shutdown signal.  [get()] on a queue that stays empty
    never returns: the loop is then [Blocked].  The frames on which
    detection ran are recorded in [processed]. *)
Inductive Status : Type := Exited | Blocked.

Record Run `{Cv2} : Type := mkRun {
  status : Status;
  memory : Shared;
  processed : list ndarray;
  unread : list (option ndarray)
}.
Arguments mkRun {_} _ _ _ _.

Fixpoint process_frame `{Cv2} (frame_queue : list (option ndarray))
    (cells : Shared) : Run :=
  match frame_queue with
  | [] => mkRun Blocked cells [] []
  | None :: later => mkRun Exited cells [] later
  | Some frame :: later =>
      let coordinates := find_ball_coordinates frame in
      let cells' :=
        match coordinates with
        | Some c => publish c cells
        | None => cells
        end in
      let r := process_frame later cells' in
      mkRun (status r) (memory r) (frame :: processed r) (unread r)
  end.

(** *** The detector process and the sender task, step by step

    The detector runs in its own process; [send_coordinates] runs in
    the client's event loop.  Each access to a [.value] is one step,
    taken under that cell's own lock. *)
Inductive DetectorPc : Type :=
| AtGet
| AtStoreX (coordinates : Z * Z)
| AtStoreY (coordinates : Z * Z)
| Done.

Record Detector `{Cv2} : Type := mkDetector {
  pc : DetectorPc;
  frame_queue : list (option ndarray);
  seen : list ndarray
}.
Arguments mkDetector {_} _ _ _.

Definition detector_step `{Cv2} (d : Detector) (m : Shared)
    : Detector * Shared :=
  match pc d with
  | AtGet =>
      match frame_queue d with
      | [] => (d, m)
      | None :: later => (mkDetector Done later (seen d), m)
      | Some frame :: later =>
          match find_ball_coordinates frame with
          | Some c => (mkDetector (AtStoreX c) later (seen d ++ [frame]), m)
          | None => (mkDetector AtGet later (seen d ++ [frame]), m)
          end
      end
  | AtStoreX c =>
      (mkDetector (AtStoreY c) (frame_queue d) (seen d), store_x (fst c) m)
  | AtStoreY c =>
      (mkDetector AtGet (frame_queue d) (seen d), store_y (snd c) m)
  | Done => (d, m)
  end.

(** One round of [send_coordinates] after its sleep: if the channel is
    open, read [x_value.value], then [y_value.value], and send both. *)
Inductive SenderPc : Type :=
| AtSleep
| AtLoadY (x_read : Z).

Record Sender : Type := mkSender {
  spc : SenderPc;
  channel_open : bool;
  sent : list (Z * Z)
}.

Definition sender_step (s : Sender) (m : Shared) : Sender :=
  match spc s with
  | AtSleep =>
      if channel_open s
      then mkSender (AtLoadY (x_value m)) (channel_open s) (sent s)
      else s
  | AtLoadY x_read =>
      mkSender AtSleep (channel_open s) (sent s ++ [(x_read, y_value m)])
  end.

Record System `{Cv2} : Type := mkSystem {
  cells : Shared;
  detector : Detector;
  sender : Sender
}.
Arguments mkSystem {_} _ _ _.

Inductive Actor : Type := DetectorProcess | SenderTask.

Definition step `{Cv2} (s : System) (a : Actor) : System :=
  match a with
  | DetectorProcess =>
      let '(d, m) := detector_step (detector s) (cells s) in
      mkSystem m d (sender s)
  | SenderTask =>
      mkSystem (cells s) (detector s) (sender_step (sender s) (cells s))
  end.

(** The system after the steps of a schedule. *)
Definition run `{Cv2} (schedule : list Actor) (s : System) : System :=
  fold_left step schedule s.

(** The client as [run_client] starts it, with the frames that will be
    put on the queue. *)
Definition start `{Cv2} (q : list (option ndarray)) (open : bool) : System :=
  mkSystem initial_cells (mkDetector AtGet q []) (mkSender AtSleep open []).

(** The coordinates the detector finds in a sequence of frames. *)
Fixpoint detections `{Cv2} (frames : list ndarray) : list (Z * Z) :=
  match frames with
  | [] => []
  | frame :: later =>
      match find_ball_coordinates frame with
      | Some c => c :: detections later
      | None => detections later
      end
  end.

(** The frames of a queue, up to the shutdown signal. *)
Fixpoint frames_before_shutdown {A : Type} (q : list (option A)) : list A :=
  match q with
  | Some frame :: later => frame :: frames_before_shutdown later
  | _ => []
  end.

(** The contours [find_ball_coordinates] gets from a frame. *)
Definition contours_of `{Cv2} (frame : ndarray) : list contour :=
  fst (findContours
         (snd (threshold (cvtColor frame COLOR_BGR2GRAY) 250 255
                 THRESH_BINARY))
         RETR_EXTERNAL CHAIN_APPROX_SIMPLE).

(** What the cells hold once a detection is stored in full. *)
Definition stored (c : Z * Z) : Z * Z := (c_int (fst c), c_int (snd c)).

Definition pair_of (m : Shared) : Z * Z := (x_value m, y_value m).

(** The values each cell can ever hold, and the pairs of whole
    detections, for the frames [frames] put on the queue before the
    shutdown signal. *)
Definition x_values `{Cv2} (frames : list ndarray) : list Z :=
  x_value initial_cells :: map (fun c => c_int (fst c)) (detections frames).
Definition y_values `{Cv2} (frames : list ndarray) : list Z :=
  y_value initial_cells :: map (fun c => c_int (snd c)) (detections frames).
Definition whole_pairs `{Cv2} (frames : list ndarray) : list (Z * Z) :=
  pair_of initial_cells :: map stored (detections frames).

(** What holds of the running system at every step. *)
Definition consistent `{Cv2} (frames : list ndarray) (s : System) : Prop :=
  In (x_value (cells s)) (x_values frames) /\
  In (y_value (cells s)) (y_values frames) /\
  match pc (detector s) with
  | AtGet =>
      In (pair_of (cells s)) (whole_pairs frames) /\
      incl (frames_before_shutdown (frame_queue (detector s))) frames
  | AtStoreX c =>
      In (pair_of (cells s)) (whole_pairs frames) /\
      In c (detections frames) /\
      incl (frames_before_shutdown (frame_queue (detector s))) frames
  | AtStoreY c =>
      x_value (cells s) = c_int (fst c) /\
      In c (detections frames) /\
      incl (frames_before_shutdown (frame_queue (detector s))) frames
  | Done => In (pair_of (cells s)) (whole_pairs frames)
  end /\
  match spc (sender s) with
  | AtSleep => True
  | AtLoadY x_read => In x_read (x_values frames)
  end /\
  Forall (fun ab => In (fst ab) (x_values frames) /\
                    In (snd ab) (y_values frames))
         (sent (sender s)).

(** *** A stand-in for OpenCV on synthetic frames

    A frame is the list of white discs [(cx, cy, r)] drawn on black, as
    [create_test_frame] of the test suite draws them, the discs being
    apart from each other.  Each disc is one contour; contours come out
    last-drawn first; the area grows with the radius and the enclosing
    circle of a disc is the disc. *)
Definition disc_area (c : Z * Z * Z) : Q :=
  let '(_, _, r) := c in inject_Z (3 * r * r).

Definition disc_circle (c : Z * Z * Z) : (Q * Q) * Q :=
  let '(cx, cy, r) := c in ((inject_Z cx, inject_Z cy), inject_Z r).

Definition disc_cv2 : Cv2 := {|
  ndarray := list (Z * Z * Z);
  contour := Z * Z * Z;
  cvtColor := fun img _ => img;
  threshold := fun img thresh _ _ => (inject_Z thresh, img);
  findContours := fun img _ _ => (rev img, img);
  contourArea := disc_area;
  minEnclosingCircle := disc_circle
|}.

(** The test of [on_track] that ends its loop:
    [cv2.waitKey(1) & 0xFF == ord('q')]. *)
Definition quit_key (key : Z) : bool := Z.land key 255 =? 113.

(** What the detector and its cells are, apart from the sender. *)
Definition machine `{Cv2} (s : System) : Shared * Detector :=
  (cells s, detector s).

Definition is_detector_step (a : Actor) : bool :=
  match a with
  | DetectorProcess => true
  | SenderTask => false
  end.


End Client.
Import Client.

(** * Properties *)

Lemma update_position_unfold (width height : Z) (b : Ball) :
  update_position width height b =
  (Return tt,
   let px := x b + velocity_x b in
   let py := y b + velocity_y b in
   mkBall px py
     (if (px - radius b <=? 0) || (px + radius b >=? width)
      then velocity_x b * -1 else velocity_x b)
     (if (py - radius b <=? 0) || (py + radius b >=? height)
      then velocity_y b * -1 else velocity_y b)
     (radius b)).
Proof.
  destruct b as [bx by' vx vy r].
  cbv [update_position _check_bounce bind modify get when ret
       set_x set_y set_velocity_x set_velocity_y
       x y velocity_x velocity_y radius].
  destruct ((bx + vx - r <=? 0) || (bx + vx + r >=? width));
    destruct ((by' + vy - r <=? 0) || (by' + vy + r >=? height)); reflexivity.
Qed.

(** The state one call leaves behind. *)
Lemma exec_update_position (width height : Z) (b : Ball) :
  exec (update_position width height) b =
  let px := x b + velocity_x b in
  let py := y b + velocity_y b in
  mkBall px py
    (if (px - radius b <=? 0) || (px + radius b >=? width)
     then velocity_x b * -1 else velocity_x b)
    (if (py - radius b <=? 0) || (py + radius b >=? height)
     then velocity_y b * -1 else velocity_y b)
    (radius b).
Proof. unfold exec. rewrite update_position_unfold. reflexivity. Qed.

(** The boolean edge test decides [at_edge]. *)
Lemma at_edge_test (pos rad dim : Z) :
  (pos - rad <=? 0) || (pos + rad >=? dim) = true <-> at_edge pos rad dim.
Proof.
  unfold at_edge. rewrite orb_true_iff, Z.leb_le, Z.geb_le. lia.
Qed.

Lemma not_at_edge_test (pos rad dim : Z) :
  (pos - rad <=? 0) || (pos + rad >=? dim) = false <-> ~ at_edge pos rad dim.
Proof.
  rewrite <- at_edge_test. destruct ((pos - rad <=? 0) || (pos + rad >=? dim));
    intuition congruence.
Qed.

#[local] Ltac edge_cases :=
  repeat match goal with
    | |- context [ (?p - ?r <=? 0) || (?p + ?r >=? ?d) ] =>
        let E := fresh "E" in
        destruct ((p - r <=? 0) || (p + r >=? d)) eqn:E;
        [ apply at_edge_test in E | apply not_at_edge_test in E ]
    end.

(** C1: one call of [update_position] returns normally, adds each velocity
    component to its coordinate, and then, on each axis by itself, negates
    the velocity component when the moved centre minus the radius is at
    most 0 or the moved centre plus the radius is at least the dimension,
    and leaves it as it was otherwise.  The position the call leaves is
    the moved one: the inversion does not touch it.  This holds for all
    frame dimensions, the positive ones among them. *)
Theorem update_position_moves_then_inverts (width height : Z) (b : Ball) :
  let b' := exec (update_position width height) b in
  update_position width height b = (Return tt, b') /\
  x b' = x b + velocity_x b /\
  y b' = y b + velocity_y b /\
  (at_edge (x b') (radius b) width -> velocity_x b' = - velocity_x b) /\
  (~ at_edge (x b') (radius b) width -> velocity_x b' = velocity_x b) /\
  (at_edge (y b') (radius b) height -> velocity_y b' = - velocity_y b) /\
  (~ at_edge (y b') (radius b) height -> velocity_y b' = velocity_y b).
Proof.
  cbv zeta. rewrite exec_update_position, update_position_unfold.
  cbv zeta. cbn [x y velocity_x velocity_y radius].
  repeat split; try reflexivity; intros A; edge_cases; try lia; tauto.
Qed.

Lemma update_position_moves_then_inverts_witness :
  let b := mkBall 639 240 2 2 30 in
  let b' := exec (update_position 640 480) b in
  at_edge (x b') (radius b) 640 /\ ~ at_edge (y b') (radius b) 480 /\
  x b' = 641 /\ y b' = 242 /\ velocity_x b' = -2 /\ velocity_y b' = 2.
Proof.
  cbv zeta.
  assert (Ex : at_edge 641 30 640) by (unfold at_edge; lia).
  assert (Ey : ~ at_edge 242 30 480) by (unfold at_edge; lia).
  destruct (update_position_moves_then_inverts 640 480 (mkBall 639 240 2 2 30))
    as (_ & Hx & Hy & Hvx & _ & _ & Hvy).
  split; [exact Ex|]. split; [exact Ey|].
  split; [exact Hx|]. split; [exact Hy|].
  split; [exact (Hvx Ex)|exact (Hvy Ey)].
Defined.

(** C10: a call of [update_position] leaves the radius as it was, and each
    velocity component is the former one or its negation, so its absolute
    value is kept. *)
Theorem update_position_keeps_speed_and_radius (width height : Z) (b : Ball) :
  let b' := exec (update_position width height) b in
  radius b' = radius b /\
  (velocity_x b' = velocity_x b \/ velocity_x b' = - velocity_x b) /\
  (velocity_y b' = velocity_y b \/ velocity_y b' = - velocity_y b) /\
  Z.abs (velocity_x b') = Z.abs (velocity_x b) /\
  Z.abs (velocity_y b') = Z.abs (velocity_y b).
Proof.
  cbv zeta. rewrite exec_update_position.
  cbv zeta. cbn [x y velocity_x velocity_y radius].
  repeat split; edge_cases; lia.
Qed.

(** C5: for a ball of positive radius (the invariant of the data model)
    whose centre is within [radius, dimension - radius] on each axis and
    whose radius is at most min(width, height) / 2, the centre after one
    call of [update_position] is within
    [- |velocity|, dimension + |velocity|] on each axis. *)
Theorem update_position_bounded_overshoot (width height : Z) (b : Ball) :
  0 < radius b ->
  in_frame (x b) (radius b) width ->
  in_frame (y b) (radius b) height ->
  radius b <= Z.min width height / 2 ->
  let b' := exec (update_position width height) b in
  - Z.abs (velocity_x b) <= x b' <= width + Z.abs (velocity_x b) /\
  - Z.abs (velocity_y b) <= y b' <= height + Z.abs (velocity_y b).
Proof.
  unfold in_frame. intros Hr Hx Hy _. cbv zeta.
  rewrite exec_update_position. cbv zeta. cbn [x y]. lia.
Qed.

Lemma update_position_bounded_overshoot_witness :
  let b := mkBall 630 470 10 10 10 in
  let b' := exec (update_position 640 480) b in
  - Z.abs (velocity_x b) <= x b' <= 640 + Z.abs (velocity_x b) /\
  - Z.abs (velocity_y b) <= y b' <= 480 + Z.abs (velocity_y b).
Proof.
  apply (update_position_bounded_overshoot 640 480 (mkBall 630 470 10 10 10));
    unfold in_frame; simpl; try lia.
  vm_compute. discriminate.
Defined.

(** ** Many ticks *)

(** One move and edge test keep an axis [near_frame]. *)
Lemma near_frame_step (pos vel rad dim : Z) :
  near_frame pos vel rad dim ->
  near_frame (pos + vel)
    (if (pos + vel - rad <=? 0) || (pos + vel + rad >=? dim)
     then vel * -1 else vel)
    rad dim.
Proof.
  unfold near_frame, in_frame. intros [Hfit Hcases]. split; [exact Hfit|].
  edge_cases; unfold at_edge in *; lia.
Qed.

Lemma near_frame_bound (pos vel rad dim : Z) :
  near_frame pos vel rad dim ->
  rad - Z.abs vel <= pos <= dim - rad + Z.abs vel.
Proof. unfold near_frame, in_frame. lia. Qed.

Lemma in_frame_near_frame (pos vel rad dim : Z) :
  in_frame pos rad dim -> near_frame pos vel rad dim.
Proof. unfold near_frame, in_frame. lia. Qed.

Lemma ticks_succ (n : nat) (width height : Z) (b : Ball) :
  ticks (S n) width height b =
  ticks n width height (exec (update_position width height) b).
Proof. reflexivity. Qed.

Lemma update_position_keeps_speed (width height : Z) (b : Ball) :
  let b' := exec (update_position width height) b in
  radius b' = radius b /\
  Z.abs (velocity_x b') = Z.abs (velocity_x b) /\
  Z.abs (velocity_y b') = Z.abs (velocity_y b).
Proof.
  cbv zeta. rewrite exec_update_position.
  cbv zeta. cbn [x y velocity_x velocity_y radius].
  repeat split; edge_cases; lia.
Qed.

Lemma update_position_near_frame (width height : Z) (b : Ball) :
  near_frame (x b) (velocity_x b) (radius b) width ->
  near_frame (y b) (velocity_y b) (radius b) height ->
  let b' := exec (update_position width height) b in
  near_frame (x b') (velocity_x b') (radius b') width /\
  near_frame (y b') (velocity_y b') (radius b') height.
Proof.
  intros Hx Hy. cbv zeta. rewrite exec_update_position.
  cbv zeta. cbn [x y velocity_x velocity_y radius].
  split; apply near_frame_step; assumption.
Qed.

(** What every number of ticks keeps. *)
Lemma ticks_invariant (n : nat) (width height : Z) :
  forall b : Ball,
    near_frame (x b) (velocity_x b) (radius b) width ->
    near_frame (y b) (velocity_y b) (radius b) height ->
    let b' := ticks n width height b in
    near_frame (x b') (velocity_x b') (radius b') width /\
    near_frame (y b') (velocity_y b') (radius b') height /\
    radius b' = radius b /\
    Z.abs (velocity_x b') = Z.abs (velocity_x b) /\
    Z.abs (velocity_y b') = Z.abs (velocity_y b).
Proof.
  induction n as [|n IH]; intros b Hx Hy.
  - cbn. auto.
  - cbv zeta. rewrite ticks_succ.
    destruct (update_position_keeps_speed width height b) as (Hr & Hvx & Hvy).
    destruct (update_position_near_frame width height b Hx Hy) as [Hx1 Hy1].
    destruct (IH _ Hx1 Hy1) as (Ix & Iy & Ir & Ivx & Ivy).
    split; [exact Ix|]. split; [exact Iy|]. repeat split; congruence.
Qed.

(** C2, as the code has it: from a centre within
    [radius, dimension - radius] on each axis, after any number of calls of
    [update_position] the centre is within
    [radius - |velocity|, dimension - radius + |velocity|] on each axis. *)
Theorem ticks_stay_within_one_move_of_frame
    (n : nat) (width height : Z) (b : Ball) :
  0 < radius b ->
  in_frame (x b) (radius b) width ->
  in_frame (y b) (radius b) height ->
  let b' := ticks n width height b in
  radius b - Z.abs (velocity_x b) <= x b'
    <= width - radius b + Z.abs (velocity_x b) /\
  radius b - Z.abs (velocity_y b) <= y b'
    <= height - radius b + Z.abs (velocity_y b).
Proof.
  intros _ Hx Hy.
  destruct (ticks_invariant n width height b) as (Ix & Iy & Ir & Ivx & Ivy).
  - apply in_frame_near_frame; exact Hx.
  - apply in_frame_near_frame; exact Hy.
  - cbv zeta. apply near_frame_bound in Ix, Iy.
    rewrite Ir, Ivx in Ix. rewrite Ir, Ivy in Iy. split; assumption.
Qed.

Lemma ticks_stay_within_one_move_of_frame_witness :
  let b := mkBall 630 470 10 10 10 in
  let b' := ticks 3 640 480 b in
  0 <= x b' <= 640 /\ 0 <= y b' <= 480.
Proof.
  apply (ticks_stay_within_one_move_of_frame 3 640 480
           (mkBall 630 470 10 10 10));
    unfold in_frame; simpl; lia.
Defined.

(** C2, as stated, fails: the ball of [test_ball_collision_corner] has a
    positive radius and starts within [radius, dimension - radius] on both
    axes, and one call puts its centre at (640, 480), beyond both upper
    bounds 630 and 470. *)
Lemma update_position_leaves_frame :
  let b := mkBall 630 470 10 10 10 in
  let b' := exec (update_position 640 480) b in
  0 < radius b /\
  in_frame (x b) (radius b) 640 /\ in_frame (y b) (radius b) 480 /\
  (x b', y b') = (640, 480) /\
  ~ in_frame (x b') (radius b') 640 /\ ~ in_frame (y b') (radius b') 480.
Proof.
  cbv zeta. unfold in_frame. simpl. repeat split; try lia.
Qed.

(** ** Numbers of the telemetry handler *)

(** Rounding a magnitude with the sign bit clear gives no negative float. *)
Lemma binary_round_aux_not_negative (m e : Z) (l : location) :
  is_negative (binary_round_aux prec emax false m e l) = false.
Proof.
  unfold binary_round_aux.
  destruct (shr_fexp prec emax m e l) as [mrs' e'].
  destruct (shr_fexp prec emax _ e' loc_Exact) as [mrs'' e''].
  destruct (shr_m mrs'') as [|q|q]; [reflexivity| |reflexivity].
  destruct (e'' <=? emax - prec); reflexivity.
Qed.

Lemma int_to_float_raises (n : Z) (e : exn) :
  int_to_float n = Raise e -> e = OverflowError.
Proof.
  unfold int_to_float.
  destruct (binary_normalize prec emax n 0 false); congruence.
Qed.

Lemma int_to_float_not_negative (n : Z) (f : float) :
  0 <= n -> int_to_float n = Return f -> is_negative f = false.
Proof.
  intros Hn. unfold int_to_float, binary_normalize.
  destruct n as [|q|q]; [intros [= <-]; reflexivity| |lia].
  unfold binary_round.
  destruct (shl_align q 0 _) as [mz ez].
  pose proof (binary_round_aux_not_negative (Z.pos mz) ez loc_Exact) as Hs.
  destruct (binary_round_aux prec emax false (Z.pos mz) ez loc_Exact);
    intros [= <-]; exact Hs.
Qed.


Lemma as_float_raises (a : number) (e : exn) :
  as_float a = Raise e -> e = OverflowError.
Proof. destruct a; cbn; [apply int_to_float_raises|discriminate]. Qed.

Lemma arith_raises (on_int : Z -> Z -> Z) (on_float : float -> float -> float)
    (a b : number) (e : exn) :
  arith on_int on_float a b = Raise e -> e = OverflowError.
Proof.
  unfold arith. destruct a as [m|u], b as [n|v]; cbn [as_float];
    try discriminate;
    (destruct (int_to_float _) eqn:Hc;
     [discriminate|intros [= <-]; apply (int_to_float_raises _ _ Hc)]).
Qed.

Lemma arith_ints (on_int : Z -> Z -> Z) (on_float : float -> float -> float)
    (m n : Z) :
  arith on_int on_float (NInt m) (NInt n) = Return (NInt (on_int m n)).
Proof. reflexivity. Qed.

(** [math.sqrt] of an int that is not negative: the root of its float, or
    [OverflowError]; never a [ValueError]. *)
Lemma math_sqrt_int (n : Z) :
  0 <= n ->
  math_sqrt (NInt n) =
  match int_to_float n with
  | Return f => Return (float_sqrt f)
  | Raise e => Raise e
  end.
Proof.
  intros Hn. unfold math_sqrt. cbn [as_float].
  destruct (int_to_float n) as [f|e] eqn:Hf; [|reflexivity].
  pose proof (int_to_float_not_negative n f Hn Hf) as Hs.
  destruct f as [s|s| |s m e]; cbn [is_negative] in Hs; subst; reflexivity.
Qed.

Lemma math_sqrt_raises (a : number) (e : exn) :
  math_sqrt a = Raise e -> e = OverflowError \/ e = ValueError.
Proof.
  unfold math_sqrt. destruct (as_float a) as [v|e'] eqn:Ha.
  - destruct v as [s|[|]| |[|] m ex]; try discriminate;
      intros [= <-]; right; reflexivity.
  - intros [= <-]. left. apply (as_float_raises _ _ Ha).
Qed.

(** ** The telemetry handler *)

Section Handler.

Context `{decoder : Json} `{libm : Libm}.

Lemma num_square_raises (a : number) (e : exn) :
  num_square a = Raise e -> e = OverflowError.
Proof.
  destruct a as [n|f]; cbn [num_square]; [discriminate|].
  unfold float_square.
  destruct f as [s|s| |s m ex]; try discriminate.
  destruct (SFeqb _ _); [discriminate|].
  destruct (pow_two _); [discriminate|]. intros [= <-]. reflexivity.
Qed.

Lemma py_sub_raises (a : Z) (v : pyval) (e : exn) :
  py_sub a v = Raise e -> e = TypeError \/ e = OverflowError.
Proof.
  unfold py_sub. destruct (as_number v) as [b|].
  - intros Hr. right. apply (arith_raises _ _ _ _ _ Hr).
  - intros [= <-]. left. reflexivity.
Qed.

Lemma on_message_undecodable (message : string) (e : exn) (p : Process) :
  json_loads message = Raise e ->
  on_message message p = (Raise e, p).
Proof.
  intros Hm. unfold on_message, bind, lift. rewrite Hm. reflexivity.
Qed.

(** The arithmetic of the handler on the two fields, in the order Python
    evaluates it. *)
Lemma on_message_fields (message : string) (v predicted_x predicted_y : pyval)
    (p : Process) :
  json_loads message = Return v ->
  getitem v "x" = Return predicted_x ->
  getitem v "y" = Return predicted_y ->
  let actual_x := x (ball (track p)) in
  let actual_y := y (ball (track p)) in
  on_message message p =
  match py_sub actual_x predicted_x with
  | Raise e => (Raise e, p)
  | Return dx =>
  match num_square dx with
  | Raise e => (Raise e, p)
  | Return dx2 =>
  match py_sub actual_y predicted_y with
  | Raise e => (Raise e, p)
  | Return dy =>
  match num_square dy with
  | Raise e => (Raise e, p)
  | Return dy2 =>
  match num_add dx2 dy2 with
  | Raise e => (Raise e, p)
  | Return sum =>
  match math_sqrt sum with
  | Raise e => (Raise e, p)
  | Return error =>
      (Return tt,
       mkProcess (track p)
         (stdout p ++ [mkSample v (actual_x, actual_y) error]))
  end end end end end end.
Proof.
  intros Hm Hx Hy. cbv zeta.
  unfold on_message, bind, lift, get, print, modify.
  rewrite Hm, Hx, Hy.
  destruct (py_sub _ predicted_x) as [dx|e]; [|reflexivity].
  destruct (num_square dx) as [dx2|e]; [|reflexivity].
  destruct (py_sub _ predicted_y) as [dy|e]; [|reflexivity].
  destruct (num_square dy) as [dy2|e]; [|reflexivity].
  destruct (num_add dx2 dy2) as [sum|e]; [|reflexivity].
  destruct (math_sqrt sum) as [error|e]; reflexivity.
Qed.

Lemma on_message_no_field (message : string) (v : pyval) (p : Process) :
  json_loads message = Return v ->
  (forall e : exn,
      getitem v "x" = Raise e -> on_message message p = (Raise e, p)) /\
  (forall (w : pyval) (e : exn),
      getitem v "x" = Return w -> getitem v "y" = Raise e ->
      on_message message p = (Raise e, p)).
Proof.
  intros Hm. unfold on_message, bind, lift. rewrite Hm. split.
  - intros e ->. reflexivity.
  - intros w e -> ->. reflexivity.
Qed.

(** Integer fields: the squared distance is an exact integer, and only
    its conversion to a float can fail. *)
Lemma on_message_integers (message : string) (d : list (string * pyval))
    (vx vy : pyval) (px py : Z) (p : Process) :
  json_loads message = Return (PDict d) ->
  dict_get d "x" = Some vx -> dict_get d "y" = Some vy ->
  as_number vx = Some (NInt px) -> as_number vy = Some (NInt py) ->
  let actual_x := x (ball (track p)) in
  let actual_y := y (ball (track p)) in
  on_message message p =
  match int_to_float ((actual_x - px) ^ 2 + (actual_y - py) ^ 2) with
  | Return f =>
      (Return tt,
       mkProcess (track p)
         (stdout p ++
          [mkSample (PDict d) (actual_x, actual_y) (float_sqrt f)]))
  | Raise e => (Raise e, p)
  end.
Proof.
  intros Hm Hx Hy Hnx Hny. cbv zeta.
  rewrite (on_message_fields message (PDict d) vx vy p Hm)
    by (cbn [getitem]; rewrite ?Hx, ?Hy; reflexivity).
  cbv zeta. unfold py_sub, num_sub, num_add. rewrite Hnx, Hny, !arith_ints.
  cbn [num_square]. rewrite arith_ints.
  rewrite math_sqrt_int by nia.
  destruct (int_to_float _); reflexivity.
Qed.

End Handler.

Lemma py_sub_returns (a : Z) (v : pyval) (r : number) :
  py_sub a v = Return r -> is_number v = true.
Proof.
  unfold py_sub, is_number. destruct (as_number v); [reflexivity|discriminate].
Qed.

Lemma py_sub_not_number (a : Z) (v : pyval) :
  is_number v = false -> py_sub a v = Raise TypeError.
Proof.
  unfold py_sub, is_number. destruct (as_number v); [discriminate|reflexivity].
Qed.

(** A decoded message with [x] and [y], of which [y] is not a number. *)
Lemma on_message_bad_y `{Json} `{Libm} (message : string) (v vx vy : pyval)
    (p : Process) :
  json_loads message = Return v ->
  getitem v "x" = Return vx -> getitem v "y" = Return vy ->
  is_number vy = false ->
  exists e : exn,
    on_message message p = (Raise e, p) /\
    (e = TypeError \/ e = OverflowError).
Proof.
  intros Hm Hx Hy Hn.
  rewrite (on_message_fields message v vx vy p Hm Hx Hy). cbv zeta.
  destruct (py_sub _ vx) as [dx|e] eqn:Hdx.
  - destruct (num_square dx) as [dx2|e] eqn:Hdx2.
    + rewrite (py_sub_not_number _ vy Hn). exists TypeError. auto.
    + exists e. split; [reflexivity|]. right.
      apply (num_square_raises _ _ Hdx2).
  - exists e. split; [reflexivity|]. apply (py_sub_raises _ _ _ Hdx).
Qed.

(** A decoded message that is not well formed makes the handler raise. *)
Lemma on_message_malformed `{Json} `{Libm}
    (message : string) (v : pyval) (p : Process) :
  json_loads message = Return v ->
  well_formed v = false ->
  exists e : exn,
    on_message message p = (Raise e, p) /\
    (e = KeyError "x" \/ e = KeyError "y" \/ e = TypeError \/
     e = OverflowError).
Proof.
  intros Hm Hv.
  destruct (on_message_no_field message v p Hm) as [Hnox Hnoy].
  destruct v as [ | b | n | q | s | l | d ];
    try (exists TypeError; split; [apply Hnox; reflexivity|auto]).
  cbn [well_formed] in Hv. unfold has_number in Hv. cbn [getitem] in *.
  destruct (dict_get d "x") as [vx|] eqn:Hx;
    [|exists (KeyError "x"); split; [apply Hnox; reflexivity|auto]].
  destruct (dict_get d "y") as [vy|] eqn:Hy;
    [|exists (KeyError "y"); split;
      [apply (Hnoy vx); reflexivity|auto]].
  destruct (is_number vx) eqn:Hnx.
  - cbn [andb] in Hv.
    destruct (on_message_bad_y message (PDict d) vx vy p Hm)
      as (e & He & Hcases); try assumption;
      try (cbn [getitem]; rewrite ?Hx, ?Hy; reflexivity).
    exists e. split; [exact He|]. destruct Hcases; auto.
  - rewrite (on_message_fields message (PDict d) vx vy p Hm)
      by (cbn [getitem]; rewrite ?Hx, ?Hy; reflexivity).
    cbv zeta. rewrite (py_sub_not_number _ vx Hnx).
    exists TypeError. auto.
Qed.







(** A distance too long for 53 bits is rounded: a report 2^53 + 1 to the
    right of the ball prints 2^53. *)
Lemma on_message_rounds_long_distance `{Json} `{Libm}
    (message : string) (p : Process) :
  json_loads message =
    Return (PDict [("x", PInt (300 + 2 ^ 53 + 1)); ("y", PInt 200)]) ->
  x (ball (track p)) = 300 -> y (ball (track p)) = 200 ->
  exists e : float,
    on_message message p =
    (Return tt,
     mkProcess (track p)
       (stdout p ++
        [mkSample (PDict [("x", PInt (300 + 2 ^ 53 + 1)); ("y", PInt 200)])
           (300, 200) e])) /\
    float_value e = Some (inject_Z (2 ^ 53)).
Proof.
  intros Hm Hx Hy. exists (S754_finite false 4503599627370496 1).
  split; [|vm_compute; reflexivity].
  rewrite (on_message_integers message _ _ _ _ _ p Hm
             eq_refl eq_refl eq_refl eq_refl).
  cbv zeta. rewrite Hx, Hy.
  replace (int_to_float ((300 - (300 + 2 ^ 53 + 1)) ^ 2 + (200 - 200) ^ 2))
    with (Return (S754_finite false 4503599627370497 54))
    by (vm_compute; reflexivity).
  replace (float_sqrt (S754_finite false 4503599627370497 54))
    with (S754_finite false 4503599627370496 1)
    by (vm_compute; reflexivity).
  reflexivity.
Qed.


(** ** The detector *)

Section DetectorFacts.

Context `{cv : Cv2}.

Lemma find_ball_coordinates_contours (frame : ndarray) :
  find_ball_coordinates frame =
  match contours_of frame with
  | c0 :: cs =>
      let '((cx, cy), _) := minEnclosingCircle (py_max contourArea c0 cs) in
      Some (py_int cx, py_int cy)
  | [] => None
  end.
Proof.
  unfold find_ball_coordinates, contours_of.
  destruct (threshold (cvtColor frame COLOR_BGR2GRAY) 250 255 THRESH_BINARY)
    as [retval thresh].
  cbn [snd].
  destruct (findContours thresh RETR_EXTERNAL CHAIN_APPROX_SIMPLE)
    as [contours hierarchy].
  reflexivity.
Qed.

Lemma process_frame_frame (frame : ndarray)
    (later : list (option ndarray)) (cells : Shared) :
  process_frame (Some frame :: later) cells =
  let r := process_frame later
             match find_ball_coordinates frame with
             | Some c => publish c cells
             | None => cells
             end in
  mkRun (status r) (memory r) (frame :: processed r) (unread r).
Proof. reflexivity. Qed.

(** The loop on frames followed by the shutdown signal. *)
Lemma process_frame_until_shutdown (frames : list ndarray)
    (later : list (option ndarray)) :
  forall cells : Shared,
    process_frame (map Some frames ++ None :: later) cells =
    mkRun Exited
      (fold_left (fun m c => publish c m) (detections frames) cells)
      frames later.
Proof.
  induction frames as [|frame frames IH]; intros cells.
  - reflexivity.
  - cbn [map app]. rewrite process_frame_frame. cbv zeta. rewrite IH.
    cbn [detections status memory processed unread].
    destruct (find_ball_coordinates frame) as [c|]; reflexivity.
Qed.

End DetectorFacts.

(** C6: a frame whose thresholded image has no contours makes
    [find_ball_coordinates] return [None], and [process_frame], having
    handled it, leaves [x_value] and [y_value] as they were. *)
Theorem no_contours_keeps_stale_coordinates `{Cv2}
    (frame : ndarray) (cells : Shared) :
  contours_of frame = [] ->
  find_ball_coordinates frame = None /\
  (forall later : list (option ndarray),
      memory (process_frame (Some frame :: later) cells) =
      memory (process_frame later cells)) /\
  let r := process_frame [Some frame; None] cells in
  status r = Exited /\ processed r = [frame] /\
  x_value (memory r) = x_value cells /\ y_value (memory r) = y_value cells.
Proof.
  intros Hc.
  assert (Hnone : find_ball_coordinates frame = None).
  { rewrite find_ball_coordinates_contours, Hc. reflexivity. }
  split; [exact Hnone|]. split.
  - intros later. rewrite process_frame_frame, Hnone. reflexivity.
  - cbv zeta. rewrite process_frame_frame, Hnone. cbn. auto.
Qed.

Lemma no_contours_keeps_stale_coordinates_witness :
  let cells := mkShared 320 240 in
  @find_ball_coordinates disc_cv2 [] = None /\
  (forall later : list (option (@ndarray disc_cv2)),
      memory (@process_frame disc_cv2 (Some [] :: later) cells) =
      memory (@process_frame disc_cv2 later cells)) /\
  let r := @process_frame disc_cv2 [Some []; None] cells in
  status r = Exited /\ processed r = [[]] /\
  x_value (memory r) = 320 /\ y_value (memory r) = 240.
Proof.
  apply (@no_contours_keeps_stale_coordinates disc_cv2 [] (mkShared 320 240)).
  reflexivity.
Defined.

(** C7: on a queue holding N frames and then the shutdown signal,
    [process_frame] runs detection on exactly those N frames, in the order
    they were put, and exits; whatever is on the queue after the signal
    stays unread.  The cells end up as the successive detections leave
    them. *)
Theorem process_frame_handles_frames_before_shutdown `{Cv2}
    (frames : list ndarray) (later : list (option ndarray)) (cells : Shared) :
  let r := process_frame (map Some frames ++ None :: later) cells in
  status r = Exited /\
  processed r = frames /\
  List.length (processed r) = List.length frames /\
  unread r = later /\
  memory r = fold_left (fun m c => publish c m) (detections frames) cells.
Proof.
  cbv zeta. rewrite process_frame_until_shutdown. cbn. auto.
Qed.

(** C8 fails on the frame whose only bright spot is the pixel at the
    origin: detection succeeds with (0, 0) and stores it, the cells then
    equal the initial ones, and the test of [on_track] for updated
    coordinates says they were not updated. *)
Theorem detection_at_origin_looks_unset :
  let frame := [(0, 0, 0)] in
  let r := @process_frame disc_cv2 [Some frame; None] initial_cells in
  @find_ball_coordinates disc_cv2 frame = Some (0, 0) /\
  processed r = [frame] /\
  memory r = publish (0, 0) initial_cells /\
  memory r = initial_cells /\
  coordinates_updated (memory r) = false.
Proof. cbv zeta. repeat split. Qed.

(** ** The detector and the sender, interleaved *)

Section Interleaving.

Context `{cv : Cv2}.

Lemma detections_In (frames : list ndarray) (frame : ndarray) (c : Z * Z) :
  In frame frames ->
  find_ball_coordinates frame = Some c ->
  In c (detections frames).
Proof.
  induction frames as [|f frames IH]; intros Hin Hc; [contradiction|].
  cbn [detections]. destruct Hin as [->|Hin].
  - rewrite Hc. left; reflexivity.
  - destruct (find_ball_coordinates f); [right|]; auto.
Qed.

Lemma stored_x_In (frames : list ndarray) (c : Z * Z) :
  In c (detections frames) -> In (c_int (fst c)) (x_values frames).
Proof.
  intros Hc. right. apply (in_map (fun c => c_int (fst c))). exact Hc.
Qed.

Lemma stored_y_In (frames : list ndarray) (c : Z * Z) :
  In c (detections frames) -> In (c_int (snd c)) (y_values frames).
Proof.
  intros Hc. right. apply (in_map (fun c => c_int (snd c))). exact Hc.
Qed.

Lemma stored_In (frames : list ndarray) (c : Z * Z) :
  In c (detections frames) -> In (stored c) (whole_pairs frames).
Proof. intros Hc. right. apply in_map. exact Hc. Qed.

Lemma consistent_start (q : list (option ndarray)) (open : bool) :
  consistent (frames_before_shutdown q) (start q open).
Proof.
  unfold consistent, start; cbn.
  repeat split; auto using incl_refl.
Qed.

Lemma consistent_detector_step (frames : list ndarray) (s : System) :
  consistent frames s -> consistent frames (step s DetectorProcess).
Proof.
  destruct s as [m [p q sn] sd]. unfold consistent, step, detector_step.
  cbn [cells detector sender pc frame_queue seen].
  intros (Hx & Hy & Hpc & Hs & Hsent).
  destruct p as [ | c | c | ].
  - destruct Hpc as [Hp Hq].
    destruct q as [|[frame|] later]; cbn [cells detector sender pc frame_queue].
    + repeat split; assumption.
    + cbn [frames_before_shutdown] in Hq.
      assert (Hf : In frame frames) by (apply Hq; left; reflexivity).
      assert (Hl : incl (frames_before_shutdown later) frames)
        by (intros f Hin; apply Hq; right; exact Hin).
      destruct (find_ball_coordinates frame) as [c|] eqn:Hc;
        cbn [cells detector sender pc frame_queue].
      * pose proof (detections_In frames frame c Hf Hc).
        repeat split; assumption.
      * repeat split; assumption.
    + repeat split; assumption.
  - destruct Hpc as (Hp & Hc & Hq).
    cbn [cells detector sender pc frame_queue store_x x_value y_value].
    repeat split; try assumption. apply stored_x_In; exact Hc.
  - destruct Hpc as (Hcx & Hc & Hq).
    cbn [cells detector sender pc frame_queue store_y x_value y_value].
    repeat split; try assumption.
    + apply stored_y_In; exact Hc.
    + unfold pair_of, store_y; cbn [x_value y_value]. rewrite Hcx.
      apply stored_In; exact Hc.
  - cbn [cells detector sender pc]. repeat split; assumption.
Qed.

Lemma consistent_sender_step (frames : list ndarray) (s : System) :
  consistent frames s -> consistent frames (step s SenderTask).
Proof.
  destruct s as [m d [sp open out]]. unfold consistent, step, sender_step.
  cbn [cells detector sender spc channel_open sent].
  intros (Hx & Hy & Hpc & Hs & Hsent).
  destruct sp as [|x_read].
  - destruct open; cbn [spc sent]; repeat split; assumption.
  - cbn [spc sent]. repeat split; try assumption.
    apply Forall_app. split; [exact Hsent|].
    constructor; [|constructor]. cbn [fst snd]. split; assumption.
Qed.

Lemma consistent_run (frames : list ndarray) (schedule : list Actor) :
  forall s : System,
    consistent frames s -> consistent frames (run schedule s).
Proof.
  unfold run. induction schedule as [|a schedule IH]; intros s Hs.
  - exact Hs.
  - cbn [fold_left]. apply IH.
    destruct a; [apply consistent_detector_step|apply consistent_sender_step];
      exact Hs.
Qed.

End Interleaving.

(** C4, as the code has it: a detection is published by two stores, first
    [x_value] and then [y_value], each whole on its own cell.  Under every
    interleaving of the detector with the sender, each coordinate the
    sender sends is the initial value or that coordinate of some detection,
    and whenever the detector is not between its two stores the cells hold
    the initial pair or the pair of one detection. *)
Theorem sender_reads_each_cell_whole `{Cv2}
    (q : list (option ndarray)) (open : bool) (schedule : list Actor) :
  let frames := frames_before_shutdown q in
  let s := run schedule (start q open) in
  (forall a b : Z,
      In (a, b) (sent (sender s)) ->
      In a (x_values frames) /\ In b (y_values frames)) /\
  ((forall c : Z * Z, pc (detector s) <> AtStoreY c) ->
   In (pair_of (cells s)) (whole_pairs frames)).
Proof.
  cbv zeta.
  pose proof (consistent_run _ schedule _ (consistent_start q open))
    as (Hx & Hy & Hpc & Hs & Hsent).
  split.
  - intros a b Hab. rewrite Forall_forall in Hsent.
    apply (Hsent (a, b) Hab).
  - intros Hnot.
    destruct (pc (detector (run schedule (start q open)))) as [ | c | c | ].
    + apply Hpc.
    + apply Hpc.
    + exfalso. apply (Hnot c). reflexivity.
    + exact Hpc.
Qed.

Lemma sender_reads_each_cell_whole_witness :
  let q := [Some [(100, 100, 30)]; Some [(200, 200, 30)]; None] in
  let schedule :=
    [DetectorProcess; DetectorProcess; DetectorProcess; DetectorProcess;
     DetectorProcess; SenderTask; SenderTask; DetectorProcess] in
  let s := @run disc_cv2 schedule (@start disc_cv2 q true) in
  In 200 [0; 100; 200] /\ In 100 [0; 100; 200] /\
  In (pair_of (cells s)) [(0, 0); (100, 100); (200, 200)].
Proof.
  cbv zeta.
  pose proof (@sender_reads_each_cell_whole disc_cv2
                [Some [(100, 100, 30)]; Some [(200, 200, 30)]; None] true
                [DetectorProcess; DetectorProcess; DetectorProcess;
                 DetectorProcess; DetectorProcess; SenderTask; SenderTask;
                 DetectorProcess]) as [Hsent Hcells].
  split; [|split].
  - apply (Hsent 200 100). left. reflexivity.
  - apply (Hsent 200 100). left. reflexivity.
  - apply Hcells. intros c. discriminate.
Defined.

(** C4, as stated, fails: with detections (100, 100) and (200, 200), a
    sender that reads both cells between the detector's store of
    [x_value] and its store of [y_value] sends (200, 100), the [x] of the
    second detection with the [y] of the first. *)
Lemma sender_observes_torn_pair :
  let f1 := [(100, 100, 30)] in
  let f2 := [(200, 200, 30)] in
  let schedule :=
    [DetectorProcess; DetectorProcess; DetectorProcess; DetectorProcess;
     DetectorProcess; SenderTask; SenderTask; DetectorProcess] in
  let s := @run disc_cv2 schedule (@start disc_cv2 [Some f1; Some f2; None] true) in
  @detections disc_cv2 [f1; f2] = [(100, 100); (200, 200)] /\
  sent (sender s) = [(200, 100)] /\
  ~ In (200, 100) (@whole_pairs disc_cv2 [f1; f2]).
Proof.
  cbv zeta. split; [reflexivity|]. split; [reflexivity|].
  cbn. intros [E|[E|[E|[]]]]; discriminate E.
Qed.

(** ** The two views of the detector agree *)

Section DetectorAlone.

Context `{cv : Cv2}.

Lemma run_app (s1 s2 : list Actor) (s : System) :
  run (s1 ++ s2) s = run s2 (run s1 s).
Proof. unfold run. apply fold_left_app. Qed.

(** Left alone, the step-by-step detector reaches [Done] with the cells,
    the frames handled and the unread rest of the queue that
    [process_frame] computes. *)
Lemma detector_alone_refines_process_frame (frames : list ndarray)
    (later : list (option ndarray)) (sd : Sender) :
  forall (m : Shared) (sn : list ndarray),
    let r := process_frame (map Some frames ++ None :: later) m in
    exists n : nat,
      (n <= 3 * List.length frames + 1)%nat /\
      run (repeat DetectorProcess n)
          (mkSystem m
             (mkDetector AtGet (map Some frames ++ None :: later) sn) sd) =
      mkSystem (memory r) (mkDetector Done (unread r) (sn ++ processed r)) sd.
Proof.
  induction frames as [|frame frames IH]; intros m sn; cbv zeta.
  - exists 1%nat. split; [cbn; lia|]. cbn. rewrite app_nil_r. reflexivity.
  - cbn [map app]. rewrite process_frame_frame. cbv zeta.
    cbn [status memory processed unread].
    destruct (find_ball_coordinates frame) as [c|] eqn:Hc.
    + destruct (IH (publish c m) (sn ++ [frame])%list) as (n & Hn & Hrun).
      exists (3 + n)%nat. split; [cbn [List.length]; lia|].
      rewrite repeat_app, run_app.
      replace (run (repeat DetectorProcess 3) _)
        with (mkSystem (publish c m)
                (mkDetector AtGet (map Some frames ++ None :: later)
                   (sn ++ [frame])) sd).
      * rewrite Hrun, <- app_assoc. reflexivity.
      * cbn. unfold detector_step; cbn. rewrite Hc. reflexivity.
    + destruct (IH m (sn ++ [frame])%list) as (n & Hn & Hrun).
      exists (1 + n)%nat. split; [cbn [List.length]; lia|].
      rewrite repeat_app, run_app.
      replace (run (repeat DetectorProcess 1) _)
        with (mkSystem m
                (mkDetector AtGet (map Some frames ++ None :: later)
                   (sn ++ [frame])) sd).
      * rewrite Hrun, <- app_assoc. reflexivity.
      * cbn. unfold detector_step; cbn. rewrite Hc. reflexivity.
Qed.

End DetectorAlone.

(** * Further properties of the server *)

(** ** Frames and their timestamps *)

Section Frames.

Context `{canvas : Canvas}.

Lemma recv_once (self : BouncingBallTrack) :
  recv self =
  (Return (frame_number self 0),
   mkTrack (exec (update_position (width self) (height self)) (ball self))
     (width self) (height self) (pts self + 3000)).
Proof.
  destruct self as [b w h t].
  unfold recv, _create_video_frame, on_ball, bind, get, modify, ret,
    frame_number.
  cbn [ball width height pts ticks].
  rewrite update_position_unfold. unfold exec.
  rewrite update_position_unfold. cbn [snd ball width height pts].
  change (snd time_base / 30) with 3000.
  repeat f_equal. lia.
Qed.

Lemma frame_number_after_recv (self : BouncingBallTrack) (k : nat) :
  frame_number
    (mkTrack (exec (update_position (width self) (height self)) (ball self))
       (width self) (height self) (pts self + 3000)) k =
  frame_number self (S k).
Proof.
  unfold frame_number. cbn [ball width height pts].
  rewrite <- !ticks_succ. f_equal. lia.
Qed.

Lemma recvs_spec (n : nat) :
  forall self : BouncingBallTrack,
    recvs n self =
    (Return (map (frame_number self) (seq 0 n)),
     mkTrack (ticks n (width self) (height self) (ball self))
       (width self) (height self) (pts self + 3000 * Z.of_nat n)).
Proof.
  induction n as [|n IH]; intros self.
  - destruct self as [b w h t]. unfold recvs, ret. cbn.
    repeat f_equal. lia.
  - cbn [recvs]. unfold bind at 1. rewrite recv_once.
    unfold bind at 1. rewrite IH. unfold ret.
    cbn [ball width height pts seq map].
    rewrite <- seq_shift, map_map.
    rewrite (map_ext _ _ (frame_number_after_recv self)).
    rewrite ticks_succ.
    replace (pts self + 3000 + 3000 * Z.of_nat n)
      with (pts self + 3000 * Z.of_nat (S n)) by lia.
    reflexivity.
Qed.

End Frames.

Lemma ticks_radius (n : nat) (width height : Z) :
  forall b : Ball, radius (ticks n width height b) = radius b.
Proof.
  induction n as [|n IH]; intros b; [reflexivity|].
  rewrite ticks_succ, IH.
  apply (update_position_keeps_speed width height b).
Qed.

(** X1: [n] calls of [recv] all return; they leave the ball where [n]
    calls of [update_position] put it, one tick per frame, advance [pts]
    by 3000 per call, and leave the frame size alone. *)
Theorem recv_ticks_once_per_frame `{Canvas}
    (n : nat) (self : BouncingBallTrack) :
  exists frames : list VideoFrame,
    recvs n self =
    (Return frames,
     mkTrack (ticks n (width self) (height self) (ball self))
       (width self) (height self) (pts self + 3000 * Z.of_nat n)) /\
    List.length frames = n.
Proof.
  exists (map (frame_number self) (seq 0 n)). split.
  - apply recvs_spec.
  - rewrite length_map, length_seq. reflexivity.
Qed.

(** X2: the frame of call number [k] shows the ball where [k + 1] ticks
    put it, drawn on a black image of [height] rows and [width] columns,
    and carries the timestamp [pts + 3000 * k] in the time base 1/90000;
    so the timestamps of successive frames increase strictly. *)
Theorem recv_frames_and_timestamps `{Canvas}
    (n : nat) (self : BouncingBallTrack) :
  fst (recvs n self) = Return (map (frame_number self) (seq 0 n)) /\
  (forall k : nat,
      let b := ticks (S k) (width self) (height self) (ball self) in
      planes (frame_number self k) =
        cv2_circle (np_zeros (height self) (width self)) (x b, y b)
          (radius (ball self)) /\
      frame_pts (frame_number self k) = pts self + 3000 * Z.of_nat k /\
      frame_time_base (frame_number self k) = (1, 90000)) /\
  (forall i j : nat,
      (i < j)%nat ->
      frame_pts (frame_number self i) < frame_pts (frame_number self j)).
Proof.
  split; [rewrite recvs_spec; reflexivity|]. split.
  - intros k. cbv zeta. unfold frame_number. cbn [planes frame_pts frame_time_base].
    rewrite ticks_radius. repeat split.
  - intros i j Hij. unfold frame_number. cbn [frame_pts]. lia.
Qed.

Lemma recv_frames_and_timestamps_witness :
  let self := mkTrack (mkBall 320 240 2 2 30) 640 480 0 in
  fst (@recvs drawing_canvas 2 self) =
    Return [@mkVideoFrame drawing_canvas (480, 640, [(322, 242, 30)])
              0 (1, 90000);
            @mkVideoFrame drawing_canvas (480, 640, [(324, 244, 30)])
              3000 (1, 90000)] /\
  @frame_pts drawing_canvas (frame_number self 0) <
  @frame_pts drawing_canvas (frame_number self 1).
Proof.
  cbv zeta.
  destruct (@recv_frames_and_timestamps drawing_canvas 2
              (mkTrack (mkBall 320 240 2 2 30) 640 480 0))
    as (Hframes & _ & Hpts).
  split.
  - exact Hframes.
  - apply Hpts. apply le_n.
Defined.

(** ** More on ticks *)

Lemma ticks_succ_r (n : nat) (width height : Z) :
  forall b : Ball,
    ticks (S n) width height b =
    exec (update_position width height) (ticks n width height b).
Proof.
  induction n as [|n IH]; intros b; [reflexivity|].
  rewrite ticks_succ, IH. reflexivity.
Qed.

Lemma update_position_zero_velocity (width height : Z) (b : Ball) :
  let b' := exec (update_position width height) b in
  (velocity_x b = 0 -> x b' = x b /\ velocity_x b' = 0) /\
  (velocity_y b = 0 -> y b' = y b /\ velocity_y b' = 0).
Proof.
  cbv zeta. rewrite exec_update_position. cbv zeta.
  cbn [x y velocity_x velocity_y].
  split; intros Hv; rewrite Hv; edge_cases; lia.
Qed.

(** X3: a ball with no velocity along an axis keeps its coordinate and its
    zero velocity on that axis through any number of ticks, whatever the
    frame size and wherever it is. *)
Theorem ticks_zero_velocity_stays (n : nat) (width height : Z) (b : Ball) :
  (velocity_x b = 0 ->
   x (ticks n width height b) = x b /\
   velocity_x (ticks n width height b) = 0) /\
  (velocity_y b = 0 ->
   y (ticks n width height b) = y b /\
   velocity_y (ticks n width height b) = 0).
Proof.
  revert b. induction n as [|n IH]; intros b; [cbn; auto|].
  rewrite ticks_succ.
  destruct (IH (exec (update_position width height) b)) as [IHx IHy].
  destruct (update_position_zero_velocity width height b) as [Sx Sy].
  split; intros Hv.
  - destruct (Sx Hv) as [Ex Ev]. destruct (IHx Ev) as [Ix Iv].
    split; congruence.
  - destruct (Sy Hv) as [Ey Ev]. destruct (IHy Ev) as [Iy Iv].
    split; congruence.
Qed.

Lemma ticks_zero_velocity_stays_witness :
  let b := mkBall 320 240 0 0 30 in
  (x (ticks 5 640 480 b) = 320 /\ velocity_x (ticks 5 640 480 b) = 0) /\
  (y (ticks 5 640 480 b) = 240 /\ velocity_y (ticks 5 640 480 b) = 0).
Proof.
  cbv zeta.
  destruct (ticks_zero_velocity_stays 5 640 480 (mkBall 320 240 0 0 30))
    as [Hx Hy].
  split; [apply Hx|apply Hy]; reflexivity.
Defined.

(** X4: a bounce retraces the move that caused it: when a call of
    [update_position] leaves the ball at an edge on an axis, the next call
    puts that coordinate back where it was before the first. *)
Theorem bounce_retraces_last_move (width height : Z) (b : Ball) :
  (at_edge (x b + velocity_x b) (radius b) width ->
   x (ticks 2 width height b) = x b) /\
  (at_edge (y b + velocity_y b) (radius b) height ->
   y (ticks 2 width height b) = y b).
Proof.
  cbn [ticks]. rewrite !exec_update_position. cbv zeta.
  cbn [x y velocity_x velocity_y radius].
  split; intros He; apply at_edge_test in He; rewrite He; lia.
Qed.

Lemma bounce_retraces_last_move_witness :
  let b := mkBall 630 470 10 10 10 in
  x (ticks 1 640 480 b) = 640 /\ y (ticks 1 640 480 b) = 480 /\
  x (ticks 2 640 480 b) = 630 /\ y (ticks 2 640 480 b) = 470.
Proof.
  cbv zeta.
  destruct (bounce_retraces_last_move 640 480 (mkBall 630 470 10 10 10))
    as [Hx Hy].
  split; [reflexivity|]. split; [reflexivity|].
  split; [apply Hx|apply Hy]; unfold at_edge; simpl; lia.
Defined.

(** X5: in a frame with room for a move between the two bounds, that is
    with [2 * radius + |velocity| <= dimension] on an axis, a ball that
    starts within [radius, dimension - radius] is never outside that range
    on two ticks in a row: the tick after an overshoot brings it back. *)
Theorem overshoot_lasts_one_tick (n : nat) (width height : Z) (b : Ball) :
  in_frame (x b) (radius b) width ->
  in_frame (y b) (radius b) height ->
  2 * radius b + Z.abs (velocity_x b) <= width ->
  2 * radius b + Z.abs (velocity_y b) <= height ->
  (in_frame (x (ticks n width height b)) (radius b) width \/
   in_frame (x (ticks (S n) width height b)) (radius b) width) /\
  (in_frame (y (ticks n width height b)) (radius b) height \/
   in_frame (y (ticks (S n) width height b)) (radius b) height).
Proof.
  intros Hx Hy Hw Hh.
  destruct (ticks_invariant n width height b) as (Ix & Iy & Ir & Ivx & Ivy).
  - apply in_frame_near_frame; exact Hx.
  - apply in_frame_near_frame; exact Hy.
  - cbv zeta in Ix, Iy, Ir, Ivx, Ivy.
    rewrite ticks_succ_r, exec_update_position. cbv zeta. cbn [x y].
    rewrite Ir in Ix, Iy. unfold near_frame, in_frame in *. lia.
Qed.

Lemma overshoot_lasts_one_tick_witness :
  let b := mkBall 630 470 10 10 10 in
  (in_frame (x (ticks 1 640 480 b)) 10 640 \/
   in_frame (x (ticks 2 640 480 b)) 10 640) /\
  (in_frame (y (ticks 1 640 480 b)) 10 480 \/
   in_frame (y (ticks 2 640 480 b)) 10 480).
Proof.
  apply (overshoot_lasts_one_tick 1 640 480 (mkBall 630 470 10 10 10));
    unfold in_frame; simpl; lia.
Defined.

(** ** More on the telemetry handler *)

(** Every call of the handler either raises and leaves the state as it
    was, or returns and has printed one line. *)
Lemma on_message_cases `{Json} `{Libm} (message : string) (p : Process) :
  (exists e : exn, on_message message p = (Raise e, p)) \/
  (exists line : ErrorSample,
      on_message message p =
      (Return tt, mkProcess (track p) (stdout p ++ [line]))).
Proof.
  destruct (json_loads message) as [v|e] eqn:Hm.
  - destruct (on_message_no_field message v p Hm) as [Hnox Hnoy].
    destruct (getitem v "x") as [vx|e] eqn:Hx;
      [|left; exists e; apply Hnox; reflexivity].
    destruct (getitem v "y") as [vy|e] eqn:Hy;
      [|left; exists e; apply (Hnoy vx); reflexivity].
    rewrite (on_message_fields message v vx vy p Hm Hx Hy). cbv zeta.
    destruct (py_sub _ vx) as [dx|e]; [|left; exists e; reflexivity].
    destruct (num_square dx) as [dx2|e]; [|left; exists e; reflexivity].
    destruct (py_sub _ vy) as [dy|e]; [|left; exists e; reflexivity].
    destruct (num_square dy) as [dy2|e]; [|left; exists e; reflexivity].
    destruct (num_add dx2 dy2) as [sum|e]; [|left; exists e; reflexivity].
    destruct (math_sqrt sum) as [err|e]; [|left; exists e; reflexivity].
    right. eexists. reflexivity.
  - left. exists e. apply on_message_undecodable; exact Hm.
Qed.

(** X6: whatever the message, the handler leaves the track, and so the
    ball, as it was, and it never rewrites what was printed before: it
    either raises and prints nothing, or returns and has printed one
    line. *)
Theorem on_message_only_appends_a_line `{Json} `{Libm}
    (message : string) (p : Process) :
  track (exec (on_message message) p) = track p /\
  ((exists e : exn,
       fst (on_message message p) = Raise e /\
       stdout (exec (on_message message) p) = stdout p) \/
   (exists line : ErrorSample,
       fst (on_message message p) = Return tt /\
       stdout (exec (on_message message) p) = (stdout p ++ [line])%list)).
Proof.
  unfold exec.
  destruct (on_message_cases message p) as [(e & ->)|(line & ->)];
    cbn [fst snd track stdout].
  - split; [reflexivity|]. left. exists e. auto.
  - split; [reflexivity|]. right. exists line. auto.
Qed.

(** X7: which exception a decoded message raises.  A value that is not an
    object raises [TypeError]; an object without [x] raises
    [KeyError "x"], also when [y] is missing too; an object with [x] and
    without [y] raises [KeyError "y"], also when [x] is not a number; with
    both present, an [x] that is not a number raises [TypeError], and so
    does a [y] that is not a number beside an integer [x]; beside a float
    [x] such a [y] raises [TypeError] or, when squaring the first
    difference overflows before [y] is used, [OverflowError]. *)
Theorem on_message_exception `{Json} `{Libm}
    (message : string) (v : pyval) (p : Process) :
  json_loads message = Return v ->
  ((forall d : list (string * pyval), v <> PDict d) ->
   on_message message p = (Raise TypeError, p)) /\
  (forall d : list (string * pyval),
      v = PDict d ->
      (dict_get d "x" = None ->
       on_message message p = (Raise (KeyError "x"), p)) /\
      (dict_get d "x" <> None -> dict_get d "y" = None ->
       on_message message p = (Raise (KeyError "y"), p)) /\
      (forall vx vy : pyval,
          dict_get d "x" = Some vx -> dict_get d "y" = Some vy ->
          is_number vx = false ->
          on_message message p = (Raise TypeError, p)) /\
      (forall (vx vy : pyval) (nx : Z),
          dict_get d "x" = Some vx -> dict_get d "y" = Some vy ->
          as_number vx = Some (NInt nx) -> is_number vy = false ->
          on_message message p = (Raise TypeError, p)) /\
      (forall vx vy : pyval,
          dict_get d "x" = Some vx -> dict_get d "y" = Some vy ->
          is_number vy = false ->
          exists e : exn,
            on_message message p = (Raise e, p) /\
            (e = TypeError \/ e = OverflowError))).
Proof.
  intros Hm. destruct (on_message_no_field message v p Hm) as [Hnox Hnoy].
  split.
  - intros Hv. apply Hnox.
    destruct v as [ | b | n | q | s | l | d ]; try reflexivity.
    exfalso. apply (Hv d). reflexivity.
  - intros d ->. cbn [getitem] in Hnox, Hnoy.
    split; [|split; [|split; [|split]]].
    + intros Hx. apply Hnox. rewrite Hx. reflexivity.
    + intros Hx Hy. destruct (dict_get d "x") as [vx|] eqn:Ex; [|congruence].
      apply (Hnoy vx); [reflexivity|]. rewrite Hy. reflexivity.
    + intros vx vy Hx Hy Hn.
      rewrite (on_message_fields message (PDict d) vx vy p Hm)
        by (cbn [getitem]; rewrite ?Hx, ?Hy; reflexivity).
      cbv zeta. rewrite (py_sub_not_number _ vx Hn). reflexivity.
    + intros vx vy nx Hx Hy Hnx Hn.
      rewrite (on_message_fields message (PDict d) vx vy p Hm)
        by (cbn [getitem]; rewrite ?Hx, ?Hy; reflexivity).
      cbv zeta. unfold py_sub at 1. rewrite Hnx. unfold num_sub.
      rewrite arith_ints. cbn [num_square].
      rewrite (py_sub_not_number _ vy Hn). reflexivity.
    + intros vx vy Hx Hy Hn.
      apply (on_message_bad_y message (PDict d) vx vy p Hm);
        try assumption; cbn [getitem]; rewrite ?Hx, ?Hy; reflexivity.
Qed.

Lemma on_message_exception_witness :
  let p := mkProcess (mkTrack (mkBall 300 200 2 2 30) 640 480 0) [] in
  @on_message sample_json rounding_libm msg_without_x p =
    (Raise (KeyError "x"), p) /\
  @on_message sample_json rounding_libm msg_text_x p = (Raise TypeError, p).
Proof.
  cbv zeta. split.
  - destruct (@on_message_exception sample_json rounding_libm msg_without_x
                (PDict [("y", PInt 240)])
                (mkProcess (mkTrack (mkBall 300 200 2 2 30) 640 480 0) [])
                eq_refl) as [_ Hd].
    destruct (Hd _ eq_refl) as (Hx & _). apply Hx. reflexivity.
  - destruct (@on_message_exception sample_json rounding_libm msg_text_x
                (PDict [("x", PStr "left"); ("y", PInt 240)])
                (mkProcess (mkTrack (mkBall 300 200 2 2 30) 640 480 0) [])
                eq_refl) as [_ Hd].
    destruct (Hd _ eq_refl) as (_ & _ & Hn & _).
    apply (Hn (PStr "left") (PInt 240)); reflexivity.
Defined.

(** X8: the handler returns only on a message that decodes to an object
    whose [x] and [y] are numbers, further fields not mattering and [true]
    and [false] counting as 1 and 0; when both are integers it returns
    exactly when the exact squared distance is in the range of a float. *)
Theorem on_message_returns_only_if_well_formed `{Json} `{Libm}
    (message : string) (p : Process) :
  ((exists p' : Process, on_message message p = (Return tt, p')) ->
   exists v : pyval, json_loads message = Return v /\ well_formed v = true) /\
  (forall (d : list (string * pyval)) (vx vy : pyval) (px py : Z),
      json_loads message = Return (PDict d) ->
      dict_get d "x" = Some vx -> dict_get d "y" = Some vy ->
      as_number vx = Some (NInt px) -> as_number vy = Some (NInt py) ->
      ((exists p' : Process, on_message message p = (Return tt, p')) <->
       (exists f : float,
           int_to_float ((x (ball (track p)) - px) ^ 2 +
                         (y (ball (track p)) - py) ^ 2) = Return f))).
Proof.
  split.
  - intros (p' & Hret).
    destruct (json_loads message) as [v|e] eqn:Hm;
      [|rewrite (on_message_undecodable message e p Hm) in Hret;
        discriminate Hret].
    exists v. split; [reflexivity|].
    destruct (well_formed v) eqn:Hv; [reflexivity|].
    destruct (on_message_malformed message v p Hm Hv) as (e & He & _).
    rewrite He in Hret. discriminate Hret.
  - intros d vx vy px py Hm Hx Hy Hnx Hny.
    rewrite (on_message_integers message d vx vy px py p Hm Hx Hy Hnx Hny).
    cbv zeta. destruct (int_to_float _) as [f|e].
    + split; intros _; eexists; reflexivity.
    + split; [intros (p' & Hp); discriminate Hp
             |intros (f & Hf); discriminate Hf].
Qed.

Lemma on_message_returns_only_if_well_formed_witness :
  let p := mkProcess (mkTrack (mkBall 300 200 2 2 30) 640 480 0) [] in
  (exists p' : Process,
      @on_message sample_json rounding_libm msg_320_240 p = (Return tt, p')) /\
  ~ (exists p' : Process,
      @on_message sample_json rounding_libm msg_huge_x p = (Return tt, p')).
Proof.
  cbv zeta. split.
  - apply (proj2 (@on_message_returns_only_if_well_formed sample_json
                    rounding_libm msg_320_240 _)
             [("x", PInt 320); ("y", PInt 240)] (PInt 320) (PInt 240) 320 240
             eq_refl eq_refl eq_refl eq_refl eq_refl).
    eexists. vm_compute. reflexivity.
  - intros Hret.
    apply (proj2 (@on_message_returns_only_if_well_formed sample_json
                    rounding_libm msg_huge_x _)
             [("x", PInt (10 ^ 200)); ("y", PInt 0)]
             (PInt (10 ^ 200)) (PInt 0) (10 ^ 200) 0) in Hret;
      try reflexivity.
    destruct Hret as (f & Hf). vm_compute in Hf. discriminate Hf.
Defined.

(** X9: a report with integer fields equal to the ball's position is
    answered with the error 0.0 exactly, wherever the ball is: no
    conversion or rounding is in the way. *)
Theorem on_message_exact_report_prints_zero `{Json} `{Libm}
    (message : string) (d : list (string * pyval)) (p : Process) :
  json_loads message = Return (PDict d) ->
  dict_get d "x" = Some (PInt (x (ball (track p)))) ->
  dict_get d "y" = Some (PInt (y (ball (track p)))) ->
  on_message message p =
  (Return tt,
   mkProcess (track p)
     (stdout p ++
      [mkSample (PDict d) (x (ball (track p)), y (ball (track p)))
         (S754_zero false)])).
Proof.
  intros Hm Hx Hy.
  rewrite (on_message_integers message d _ _ _ _ p Hm Hx Hy eq_refl eq_refl).
  cbv zeta. rewrite !Z.sub_diag. reflexivity.
Qed.

Lemma on_message_exact_report_prints_zero_witness :
  let p := mkProcess (mkTrack (mkBall 320 240 2 2 30) 640 480 0) [] in
  @on_message sample_json rounding_libm msg_320_240 p =
  (Return tt,
   mkProcess (track p)
     [mkSample (PDict [("x", PInt 320); ("y", PInt 240)]) (320, 240)
        (S754_zero false)]).
Proof.
  apply (@on_message_exact_report_prints_zero sample_json rounding_libm
           msg_320_240 [("x", PInt 320); ("y", PInt 240)]);
    reflexivity.
Defined.

(** * Further properties of the client *)

(** ** Choosing the contour *)

Section Maximum.

Context {A : Type} (key : A -> Q).

(** The scan of [max] keeps, at every item, the first of the items of
    greatest key seen so far. *)
Lemma py_max_scan (rest : list A) :
  forall (before after : list A) (best : A),
    (forall c, In c before -> (key c < key best)%Q) ->
    (forall c, In c after -> (key c <= key best)%Q) ->
    exists before' after' : list A,
      (before ++ best :: after ++ rest)%list =
      (before' ++ py_max key best rest :: after')%list /\
      (forall c, In c before' -> (key c < key (py_max key best rest))%Q) /\
      (forall c, In c after' -> (key c <= key (py_max key best rest))%Q).
Proof.
  unfold py_max.
  induction rest as [|item rest IH]; intros before after best Hb Ha.
  - exists before, after. rewrite app_nil_r. auto.
  - cbn [fold_left].
    destruct (Qle_bool (key item) (key best)) eqn:Hle.
    + apply Qle_bool_iff in Hle.
      destruct (IH before (after ++ [item])%list best Hb) as (b' & a' & E & P).
      * intros c Hc. apply in_app_or in Hc. destruct Hc as [Hc|[<-|[]]]; auto.
      * exists b', a'. rewrite <- app_assoc in E. exact (conj E P).
    + assert (Hlt : (key best < key item)%Q).
      { apply Qnot_le_lt. intros Hq. apply Qle_bool_iff in Hq. congruence. }
      destruct (IH (before ++ best :: after)%list [] item) as (b' & a' & E & P).
      * intros c Hc. apply in_app_or in Hc. destruct Hc as [Hc|[<-|Hc]].
        -- apply Qlt_trans with (key best); auto.
        -- exact Hlt.
        -- apply Qle_lt_trans with (key best); auto.
      * intros c [].
      * exists b', a'. rewrite <- app_assoc in E. exact (conj E P).
Qed.

End Maximum.

(** X10: [max(contours, key=cv2.contourArea)] picks a contour of the
    list whose area no other exceeds, and among several of that area the
    one that comes first: every contour before it is strictly smaller. *)
Theorem py_max_is_first_maximum {A : Type} (key : A -> Q)
    (first : A) (rest : list A) :
  let best := py_max key first rest in
  In best (first :: rest) /\
  (forall c : A, In c (first :: rest) -> (key c <= key best)%Q) /\
  (exists before after : list A,
      first :: rest = (before ++ best :: after)%list /\
      forall c : A, In c before -> (key c < key best)%Q).
Proof.
  cbv zeta.
  destruct (py_max_scan key rest [] [] first) as (b & a & E & Hb & Ha);
    try (intros c []).
  cbn [app] in E. split; [|split].
  - rewrite E. apply in_elt.
  - intros c Hc. rewrite E in Hc. apply in_app_or in Hc.
    destruct Hc as [Hc|[<-|Hc]].
    + apply Qlt_le_weak; auto.
    + apply Qle_refl.
    + auto.
  - exists b, a. auto.
Qed.

Lemma py_max_is_first_maximum_witness :
  let best := py_max disc_area (200, 200, 20) [(100, 100, 20); (50, 50, 10)] in
  best = (200, 200, 20) /\
  Qle (disc_area (100, 100, 20)) (disc_area best).
Proof.
  cbv zeta. split; [reflexivity|].
  apply (py_max_is_first_maximum disc_area (200, 200, 20)
           [(100, 100, 20); (50, 50, 10)]).
  right. left. reflexivity.
Defined.

(** X11: [find_ball_coordinates] returns [None] exactly when the
    thresholded frame has no contour; with any contour at all, however
    small, it reports coordinates. *)
Theorem find_ball_coordinates_none_iff `{Cv2} (frame : ndarray) :
  find_ball_coordinates frame = None <-> contours_of frame = [].
Proof.
  rewrite find_ball_coordinates_contours.
  destruct (contours_of frame) as [|c0 cs].
  - split; reflexivity.
  - destruct (minEnclosingCircle (py_max contourArea c0 cs)) as [[cx cy] r].
    split; discriminate.
Qed.

Lemma find_ball_coordinates_none_iff_witness :
  @find_ball_coordinates disc_cv2 [] = None.
Proof.
  apply (@find_ball_coordinates_none_iff disc_cv2 []). reflexivity.
Defined.

(** ** Truncation of the centre *)

(** X12: [int(f)] cuts the fraction off towards zero: for a centre
    coordinate that is not negative the reported integer is at most the
    coordinate and less than one below it, for a negative one it is at
    least the coordinate and less than one above; an integral coordinate
    is reported as it is. *)
Theorem py_int_truncates (f : Q) :
  ((0 <= f)%Q ->
   (inject_Z (py_int f) <= f)%Q /\ (f < inject_Z (py_int f + 1))%Q) /\
  ((f <= 0)%Q ->
   (f <= inject_Z (py_int f))%Q /\ (inject_Z (py_int f - 1) < f)%Q) /\
  (forall n : Z, py_int (inject_Z n) = n).
Proof.
  destruct f as [a d]. unfold py_int, Qle, Qlt; cbn [Qnum Qden inject_Z].
  pose proof (Z.quot_rem' a (Z.pos d)) as Hqr.
  split; [|split].
  - rewrite Z.mul_1_r. intros Ha.
    pose proof (Z.rem_bound_pos a (Z.pos d) Ha ltac:(lia)). nia.
  - rewrite Z.mul_1_r. intros Ha.
    pose proof (Z.rem_bound_pos_neg a (Z.pos d) ltac:(lia) ltac:(lia)). nia.
  - intros n. apply Z.quot_1_r.
Qed.

Lemma py_int_truncates_witness :
  py_int (7 # 2) = 3 /\ py_int (-7 # 2) = -3 /\
  (inject_Z (py_int (7 # 2)) <= 7 # 2)%Q /\
  (-7 # 2 <= inject_Z (py_int (-7 # 2)))%Q.
Proof.
  split; [reflexivity|]. split; [reflexivity|]. split.
  - apply (proj1 (py_int_truncates (7 # 2))). discriminate.
  - apply (proj1 (proj2 (py_int_truncates (-7 # 2)))). discriminate.
Defined.

(** ** The detector loop on any queue *)

Lemma publish_overwrites (c : Z * Z) (m : Shared) :
  publish c m = mkShared (c_int (fst c)) (c_int (snd c)).
Proof. reflexivity. Qed.

Lemma In_None_cons_Some {A : Type} (a : A) (q : list (option A)) :
  In None (Some a :: q) <-> In None q.
Proof.
  cbn [In]. split; [intros [E|E]; [discriminate E|exact E]|auto].
Qed.

Lemma process_frame_any_queue `{Cv2} (q : list (option ndarray)) :
  forall cells : Shared,
    let r := process_frame q cells in
    (status r = Exited <-> In None q) /\
    processed r = frames_before_shutdown q /\
    memory r =
      fold_left (fun m c => publish c m)
        (detections (frames_before_shutdown q)) cells.
Proof.
  induction q as [|[frame|] later IH]; intros cells; cbv zeta.
  - cbn. repeat split; try discriminate. intros [].
  - rewrite process_frame_frame. cbv zeta.
    cbn [status memory processed frames_before_shutdown detections].
    rewrite In_None_cons_Some.
    destruct (find_ball_coordinates frame) as [c|].
    + destruct (IH (publish c cells)) as (Hs & Hp & Hm).
      cbv zeta in Hs, Hp, Hm. rewrite Hp, Hm. auto.
    + destruct (IH cells) as (Hs & Hp & Hm).
      cbv zeta in Hs, Hp, Hm. rewrite Hp, Hm. auto.
  - cbn. repeat split; auto.
Qed.

(** X13: the loop exits exactly when the queue holds the shutdown signal;
    without it the loop handles every frame and then waits in [get()] for
    ever.  Either way it runs detection on the frames before the first
    signal, in order, and on no other. *)
Theorem process_frame_exits_iff_shutdown `{Cv2}
    (q : list (option ndarray)) (cells : Shared) :
  let r := process_frame q cells in
  (status r = Exited <-> In None q) /\
  (status r = Blocked <-> ~ In None q) /\
  processed r = frames_before_shutdown q.
Proof.
  cbv zeta. destruct (process_frame_any_queue q cells) as (Hs & Hp & _).
  cbv zeta in Hs, Hp. split; [exact Hs|]. split; [|exact Hp].
  rewrite <- Hs. destruct (status (process_frame q cells)).
  - split; [discriminate|]. intros Hn. exfalso. apply Hn. reflexivity.
  - split; [|reflexivity]. intros _. discriminate.
Qed.

Lemma process_frame_exits_iff_shutdown_witness :
  let q := [Some [(100, 100, 30)]; Some []] in
  status (@process_frame disc_cv2 q initial_cells) = Blocked /\
  processed (@process_frame disc_cv2 q initial_cells) = [[(100, 100, 30)]; []].
Proof.
  cbv zeta.
  destruct (@process_frame_exits_iff_shutdown disc_cv2
              [Some [(100, 100, 30)]; Some []] initial_cells)
    as (_ & Hb & Hp).
  split; [|exact Hp].
  apply Hb. cbn. intros [E|[E|[]]]; discriminate E.
Defined.

(** X14: the last write wins: when the loop exits the cells hold the
    coordinates found in the last frame in which a ball was found, each
    as a C int, whatever was there before; and they are untouched if no
    frame had a ball. *)
Theorem process_frame_last_detection_wins `{Cv2}
    (frames : list ndarray) (later : list (option ndarray)) (cells : Shared) :
  let r := process_frame (map Some frames ++ None :: later) cells in
  (detections frames = [] -> memory r = cells) /\
  (forall (earlier : list (Z * Z)) (c : Z * Z),
      detections frames = (earlier ++ [c])%list ->
      memory r = mkShared (c_int (fst c)) (c_int (snd c))).
Proof.
  cbv zeta. rewrite process_frame_until_shutdown. cbn [memory]. split.
  - intros ->. reflexivity.
  - intros earlier c ->. rewrite fold_left_app. cbn [fold_left].
    apply publish_overwrites.
Qed.

Lemma process_frame_last_detection_wins_witness :
  let frames := [[(100, 100, 30)]; [(200, 200, 30)]; []] in
  memory (@process_frame disc_cv2 (map Some frames ++ [None]) (mkShared 7 7)) =
  mkShared 200 200.
Proof.
  cbv zeta.
  apply (proj2 (@process_frame_last_detection_wins disc_cv2
                  [[(100, 100, 30)]; [(200, 200, 30)]; []] []
                  (mkShared 7 7))
           [(100, 100)] (200, 200)).
  reflexivity.
Defined.

(** ** The cells *)

Lemma c_int_range (v : Z) : - 2 ^ 31 <= c_int v < 2 ^ 31.
Proof.
  unfold c_int.
  pose proof (Z.mod_pos_bound (v + 2 ^ 31) (2 ^ 32) ltac:(lia)). lia.
Qed.

Lemma c_int_small (v : Z) : - 2 ^ 31 <= v < 2 ^ 31 -> c_int v = v.
Proof.
  intros Hv. unfold c_int. rewrite Z.mod_small; lia.
Qed.

Lemma c_int_wraps (v : Z) : exists k : Z, c_int v = v + 2 ^ 32 * k.
Proof.
  unfold c_int. exists (- ((v + 2 ^ 31) / 2 ^ 32)).
  rewrite Z.mod_eq by lia. lia.
Qed.

(** X15: what is read back after a detection is published: each cell holds
    a value in the range of a 32-bit signed integer that differs from the
    coordinate by a multiple of 2^32, and it is the coordinate itself
    whenever the coordinate is in that range. *)
Theorem publish_then_read (c : Z * Z) (m : Shared) :
  let m' := publish c m in
  (- 2 ^ 31 <= x_value m' < 2 ^ 31 /\ - 2 ^ 31 <= y_value m' < 2 ^ 31) /\
  (exists k l : Z,
      x_value m' = fst c + 2 ^ 32 * k /\ y_value m' = snd c + 2 ^ 32 * l) /\
  (- 2 ^ 31 <= fst c < 2 ^ 31 -> - 2 ^ 31 <= snd c < 2 ^ 31 ->
   pair_of m' = c).
Proof.
  cbv zeta. rewrite publish_overwrites. unfold pair_of. cbn [x_value y_value].
  split; [split; apply c_int_range|]. split.
  - destruct (c_int_wraps (fst c)) as [k Hk].
    destruct (c_int_wraps (snd c)) as [l Hl]. exists k, l. auto.
  - intros Hx Hy. rewrite (c_int_small _ Hx), (c_int_small _ Hy).
    destruct c; reflexivity.
Qed.

Lemma publish_then_read_witness :
  pair_of (publish (320, 240) initial_cells) = (320, 240) /\
  pair_of (publish (2 ^ 31, -1) initial_cells) = (- 2 ^ 31, -1).
Proof.
  split; [|reflexivity].
  apply (publish_then_read (320, 240) initial_cells); simpl; lia.
Defined.

(** ** The key that ends the display loop *)

(** X16: the loop of [on_track] ends on exactly the key codes whose low
    byte is 113, the letter q, whatever flags the higher bits carry; the
    code -1 for no key does not end it. *)
Theorem quit_key_low_byte (key : Z) :
  (quit_key key = true <-> key mod 256 = 113) /\ quit_key (-1) = false.
Proof.
  split; [|reflexivity].
  unfold quit_key. rewrite Z.eqb_eq.
  change 255 with (Z.ones 8). rewrite Z.land_ones by lia.
  change (2 ^ 8) with 256. reflexivity.
Qed.

Lemma quit_key_low_byte_witness :
  quit_key (113 + 256 * 4096) = true.
Proof.
  apply (proj1 (quit_key_low_byte (113 + 256 * 4096))). reflexivity.
Defined.

(** ** The sender *)

Section SenderFacts.

Context `{cv : Cv2}.

Lemma detector_step_keeps_sender (s : System) :
  sender (step s DetectorProcess) = sender s.
Proof.
  unfold step. destruct (detector_step (detector s) (cells s)). reflexivity.
Qed.

Lemma sender_step_keeps_machine (s : System) :
  machine (step s SenderTask) = machine s.
Proof. reflexivity. Qed.

Lemma detector_step_machine (s s' : System) :
  machine s = machine s' ->
  machine (step s DetectorProcess) = machine (step s' DetectorProcess).
Proof.
  unfold machine, step. intros E. injection E as Ec Ed. rewrite Ec, Ed.
  destruct (detector_step (detector s') (cells s')). reflexivity.
Qed.

Lemma run_machine (schedule : list Actor) :
  forall s s' : System,
    machine s = machine s' ->
    machine (run schedule s) =
    machine (run (filter is_detector_step schedule) s').
Proof.
  unfold run. induction schedule as [|a schedule IH]; intros s s' E.
  - exact E.
  - destruct a; cbn [filter is_detector_step fold_left].
    + apply IH. apply detector_step_machine. exact E.
    + apply IH. rewrite sender_step_keeps_machine. exact E.
Qed.

Lemma run_channel_open (schedule : list Actor) :
  forall s : System,
    channel_open (sender (run schedule s)) = channel_open (sender s).
Proof.
  unfold run. induction schedule as [|a schedule IH]; intros s; [reflexivity|].
  cbn [fold_left]. rewrite IH. destruct a.
  - rewrite detector_step_keeps_sender. reflexivity.
  - destruct s as [m d [sp op out]]. unfold step, sender_step.
    cbn [sender cells spc channel_open]. destruct sp; [destruct op|];
      reflexivity.
Qed.

Lemma closed_sender_stays (schedule : list Actor) :
  forall s : System,
    channel_open (sender s) = false -> spc (sender s) = AtSleep ->
    sender (run schedule s) = sender s.
Proof.
  unfold run. induction schedule as [|a schedule IH]; intros s Ho Hp;
    [reflexivity|].
  cbn [fold_left]. destruct a.
  - rewrite IH; rewrite detector_step_keeps_sender; auto.
  - assert (E : step s SenderTask = s).
    { destruct s as [m d sd]. unfold step, sender_step.
      cbn [sender cells detector] in *. rewrite Hp, Ho. reflexivity. }
    rewrite E. apply IH; assumption.
Qed.

End SenderFacts.

(** X17: while the channel is not open the sender sends nothing and reads
    no cell, however the detector and the sender are interleaved and
    whatever the detector finds. *)
Theorem closed_channel_sends_nothing `{Cv2}
    (q : list (option ndarray)) (schedule : list Actor) :
  let s := run schedule (start q false) in
  sent (sender s) = [] /\ spc (sender s) = AtSleep.
Proof.
  cbv zeta. rewrite closed_sender_stays by reflexivity. split; reflexivity.
Qed.

(** X18: the sender never writes the cells and never disturbs the
    detector: after any schedule the cells, the detector's place in its
    loop, its queue and the frames it has handled are what the detector's
    own steps alone would have made them. *)
Theorem sender_never_disturbs_detector `{Cv2}
    (schedule : list Actor) (s : System) :
  cells (run schedule s) =
    cells (run (filter is_detector_step schedule) s) /\
  detector (run schedule s) =
    detector (run (filter is_detector_step schedule) s).
Proof.
  pose proof (run_machine schedule s s eq_refl) as E.
  unfold machine in E. injection E as Ec Ed. split; assumption.
Qed.

(** X19: a round of the sender that starts while the detector is not
    between its two stores, and that the detector does not interrupt,
    sends one message, the pair the cells hold, and that pair is the
    initial one or the coordinates of one detection. *)
Theorem uninterrupted_round_sends_whole_pair `{Cv2}
    (q : list (option ndarray)) (schedule : list Actor) :
  let s := run schedule (start q true) in
  spc (sender s) = AtSleep ->
  (forall c : Z * Z, pc (detector s) <> AtStoreY c) ->
  sent (sender (run [SenderTask; SenderTask] s)) =
    (sent (sender s) ++ [pair_of (cells s)])%list /\
  In (pair_of (cells s)) (whole_pairs (frames_before_shutdown q)).
Proof.
  cbv zeta. intros Hp Hnot.
  pose proof (run_channel_open schedule (start q true)) as Ho.
  cbn [start sender channel_open] in Ho.
  pose proof (consistent_run _ schedule _ (consistent_start q true))
    as (_ & _ & Hpc & _ & _).
  set (s := run schedule (start q true)) in *.
  split.
  - unfold run. cbn [fold_left]. unfold step, sender_step.
    cbn [sender cells spc channel_open sent]. rewrite Hp, Ho.
    cbn [spc sent channel_open]. reflexivity.
  - destruct (pc (detector s)) as [ | c | c | ].
    + apply Hpc.
    + apply Hpc.
    + exfalso. apply (Hnot c). reflexivity.
    + exact Hpc.
Qed.

Lemma uninterrupted_round_sends_whole_pair_witness :
  let q := [Some [(100, 100, 30)]; None] in
  let s := @run disc_cv2 [DetectorProcess; DetectorProcess; DetectorProcess]
             (@start disc_cv2 q true) in
  sent (sender (@run disc_cv2 [SenderTask; SenderTask] s)) = [(100, 100)] /\
  In (100, 100) [(0, 0); (100, 100)].
Proof.
  cbv zeta.
  apply (@uninterrupted_round_sends_whole_pair disc_cv2
           [Some [(100, 100, 30)]; None]
           [DetectorProcess; DetectorProcess; DetectorProcess]).
  - reflexivity.
  - intros c. discriminate.
Defined.
